(** * yt-summary: the URL parser, the two service wrappers and the
      [/summarize] handler of [summary.py], embedded and verified.

    Python strings are sequences of Unicode code points; the regular
    expression of [extract_video_id] is embedded as a syntax tree and run by a
    backtracking matcher with the priorities of Python's [re] module (ordered
    alternation, greedy and lazy quantifiers, leftmost start).  The handler is
    written in a small monad that threads the log of calls and propagates
    Python exceptions.  The click listener of the page is embedded in its
    two parts, before and after its [await]s, inside a browser that lets
    clicks and answers overlap. *)

From Stdlib Require Import List NArith ZArith Bool Ascii String Lia.
Import ListNotations.

Set Implicit Arguments.

(* ================================================================== *)
(** ** Python strings *)

(** A [str] is a list of code points. *)
Definition char := N.
Definition str := list char.

(** The code points of an ASCII literal of the source. *)
Definition py (s : string) : str := map N_of_ascii (list_ascii_of_string s).

Fixpoint str_eqb (a b : str) : bool :=
  match a, b with
  | [], [] => true
  | x :: a', y :: b' => (x =? y)%N && str_eqb a' b'
  | _, _ => false
  end.

(** [sep.join(parts)] *)
Fixpoint join (sep : str) (parts : list str) : str :=
  match parts with
  | [] => []
  | [p] => p
  | p :: rest => p ++ sep ++ join sep rest
  end.

(** [sub in s] as a proposition. *)
Definition contains (s sub : str) : Prop :=
  exists before after, s = before ++ sub ++ after.

(** Python truthiness of a value that is [None] or a string:
    [None] and the empty string are falsy. *)
Definition truthy (x : option str) : bool :=
  match x with
  | None | Some [] => false
  | Some (_ :: _) => true
  end.

(* ================================================================== *)
(** ** Regular expressions of the [re] module *)

Module Re.

(** One member of a bracketed set. *)
Inductive item :=
| IChar (c : char)            (* a single character *)
| IRange (lo hi : char)       (* lo-hi *)
| ISpace.                     (* \s *)

(** [[...]] and [[^...]]. *)
Record charset := CharSet { negated : bool; items : list item }.

(** [\s] on a [str] pattern: the code points for which CPython's
    [Py_UNICODE_ISSPACE] holds. *)
Definition is_space (c : char) : bool :=
  ((9 <=? c) && (c <=? 13) || (28 <=? c) && (c <=? 32)
   || (c =? 133) || (c =? 160) || (c =? 5760)
   || (8192 <=? c) && (c <=? 8202)
   || (c =? 8232) || (c =? 8233) || (c =? 8239) || (c =? 8287)
   || (c =? 12288))%N.

Definition in_item (c : char) (i : item) : bool :=
  match i with
  | IChar d => (c =? d)%N
  | IRange lo hi => ((lo <=? c) && (c <=? hi))%N
  | ISpace => is_space c
  end.

Definition in_set (cs : charset) (c : char) : bool :=
  xorb (negated cs) (existsb (in_item c) (items cs)).

(** The fragment of the pattern language that the source uses.  Every
    unbounded quantifier of the pattern stands on a one-character set. *)
Inductive regex :=
| Eps
| Set_ (cs : charset)            (* a literal, an escape or a set *)
| Seq (r1 r2 : regex)
| Alt (r1 r2 : regex)            (* r1|r2 *)
| Opt (r : regex)                (* (?:r)?  greedy *)
| Plus (cs : charset)            (* cs+     greedy *)
| LazyStar (cs : charset)        (* cs*?    lazy *)
| Times (n : nat) (r : regex)    (* r{n} *)
| Group (r : regex).             (* (r), capturing group 1 *)

Definition Chr (a : ascii) : regex := Set_ (CharSet false [IChar (N_of_ascii a)]).

(** A run of literal characters. *)
Fixpoint lit (s : string) : regex :=
  match s with
  | EmptyString => Eps
  | String a rest => Seq (Chr a) (lit rest)
  end.

(** *** The backtracking matcher

    [bt r s g k] matches [r] at the front of [s] with group 1 currently
    [g], and hands the rest of the subject and the group to the
    continuation [k]; when [k] fails, the next alternative is tried. *)
Section Backtrack.
Variable R : Type.

Definition cont := str -> option str -> option R.

Definition orelse (a : option R) (b : unit -> option R) : option R :=
  match a with
  | Some x => Some x
  | None => b tt
  end.

Fixpoint greedy_star (cs : charset) (s : str) (g : option str) (k : cont)
  : option R :=
  match s with
  | c :: t =>
      if in_set cs c
      then orelse (greedy_star cs t g k) (fun _ => k s g)
      else k s g
  | [] => k s g
  end.

Fixpoint lazy_star (cs : charset) (s : str) (g : option str) (k : cont)
  : option R :=
  orelse (k s g)
    (fun _ => match s with
              | c :: t => if in_set cs c then lazy_star cs t g k else None
              | [] => None
              end).

Fixpoint bt (r : regex) (s : str) (g : option str) (k : cont) : option R :=
  match r with
  | Eps => k s g
  | Set_ cs =>
      match s with
      | c :: t => if in_set cs c then k t g else None
      | [] => None
      end
  | Seq r1 r2 => bt r1 s g (fun s' g' => bt r2 s' g' k)
  | Alt r1 r2 => orelse (bt r1 s g k) (fun _ => bt r2 s g k)
  | Opt r1 => orelse (bt r1 s g k) (fun _ => k s g)
  | Plus cs =>
      match s with
      | c :: t => if in_set cs c then greedy_star cs t g k else None
      | [] => None
      end
  | LazyStar cs => lazy_star cs s g k
  | Times n r1 =>
      (fix times (n : nat) (s : str) (g : option str) : option R :=
         match n with
         | O => k s g
         | S n' => bt r1 s g (fun s' g' => times n' s' g')
         end) n s g
  | Group r1 =>
      bt r1 s g
        (fun s' _ => k s' (Some (firstn (List.length s - List.length s') s)))
  end.
End Backtrack.

(** A match object; only group 1 is ever read. *)
Record match_obj := MatchObj { group1 : option str }.

(** [re.match]: a match that starts at the front of [s]. *)
Definition match_here (r : regex) (s : str) : option match_obj :=
  bt r s None (fun _ g => Some (MatchObj g)).

(** [re.search] on a string: the first start position, scanning from the
    left (the end of the string included), at which the pattern matches. *)
Fixpoint search (r : regex) (s : str) : option match_obj :=
  match match_here r s with
  | Some m => Some m
  | None =>
      match s with
      | [] => None
      | _ :: t => search r t
      end
  end.

(** *** What a pattern matches, without reference to any search order

    [Matches r s g g']: [r] matches exactly [s], turning group 1 from [g]
    into [g']. *)
Inductive Matches : regex -> str -> option str -> option str -> Prop :=
| MEps g : Matches Eps [] g g
| MSet cs c g : in_set cs c = true -> Matches (Set_ cs) [c] g g
| MSeq r1 r2 s1 s2 g g1 g2 :
    Matches r1 s1 g g1 -> Matches r2 s2 g1 g2 ->
    Matches (Seq r1 r2) (s1 ++ s2) g g2
| MAltL r1 r2 s g g' : Matches r1 s g g' -> Matches (Alt r1 r2) s g g'
| MAltR r1 r2 s g g' : Matches r2 s g g' -> Matches (Alt r1 r2) s g g'
| MOptSome r s g g' : Matches r s g g' -> Matches (Opt r) s g g'
| MOptNone r g : Matches (Opt r) [] g g
| MPlus cs c s g :
    in_set cs c = true -> forallb (in_set cs) s = true ->
    Matches (Plus cs) (c :: s) g g
| MLazyStar cs s g :
    forallb (in_set cs) s = true -> Matches (LazyStar cs) s g g
| MTimesO r g : Matches (Times 0 r) [] g g
| MTimesS n r s1 s2 g g1 g2 :
    Matches r s1 g g1 -> Matches (Times n r) s2 g1 g2 ->
    Matches (Times (S n) r) (s1 ++ s2) g g2
| MGroup r s g g' : Matches r s g g' -> Matches (Group r) s g (Some s).

End Re.

(* ================================================================== *)
(** ** The pattern of [extract_video_id] *)

Import Re.

Definition not_slash_nl_space : charset :=          (* [^\/\n\s] *)
  CharSet true [IChar 47%N; IChar 10%N; ISpace].
Definition non_space : charset :=                   (* \S *)
  CharSet true [ISpace].
Definition query_sep : charset :=                   (* [?&] *)
  CharSet false [IChar 63%N; IChar 38%N].
Definition id_char : charset :=                     (* [a-zA-Z0-9_-] *)
  CharSet false
    [IRange 97%N 122%N; IRange 65%N 90%N; IRange 48%N 57%N;
     IChar 95%N; IChar 45%N].

(** (?:https?:\/\/)?(?:www\.)?(?:youtube\.com\/(?:[^\/\n\s]+\/\S+\/|(?:v|e(?:mbed)?)\/|\S*?[?&]v=)|youtu\.be\/) *)
Definition url_prefix : regex :=
  Seq (Opt (Seq (lit "http") (Seq (Opt (Chr "s")) (lit "://"))))
  (Seq (Opt (lit "www."))
       (Alt (Seq (lit "youtube.com/")
                 (Alt (Seq (Plus not_slash_nl_space)
                           (Seq (Chr "/") (Seq (Plus non_space) (Chr "/"))))
                 (Alt (Seq (Alt (Chr "v") (Seq (Chr "e") (Opt (lit "mbed"))))
                           (Chr "/"))
                      (Seq (LazyStar non_space)
                           (Seq (Set_ query_sep) (lit "v="))))))
            (lit "youtu.be/"))).

(** ([a-zA-Z0-9_-]{11}) *)
Definition id_group : regex := Group (Times 11 (Set_ id_char)).

Definition video_id_pattern : regex := Seq url_prefix id_group.

(* ================================================================== *)
(** ** Values, exceptions and effects *)

(** A decoded JSON value, as [request.json] yields it and as [jsonify]
    takes it.  A [dict] keeps its items in order; keys are unique. *)
#[warnings="-register-all"] Inductive json :=
| JNull
| JBool (b : bool)
| JInt (z : Z)
| JFloat (repr : str)
| JStr (s : str)
| JArr (l : list json)
| JObj (d : list (str * json)).

Definition type_name (v : json) : str :=
  match v with
  | JNull => py "NoneType"
  | JBool _ => py "bool"
  | JInt _ => py "int"
  | JFloat _ => py "float"
  | JStr _ => py "str"
  | JArr _ => py "list"
  | JObj _ => py "dict"
  end.

(** An instance of (a subclass of) [Exception]; the handler reads only
    [str(e)]. *)
Record exn := Exn { exn_class : string; exn_str : str }.

Inductive res (A : Type) :=
| Ok (a : A)
| Raise (e : exn).
Arguments Ok {A} a.
Arguments Raise {A} e.

(** The calls that a request makes, in the order in which they happen. *)
Inductive event :=
| CallExtract (url : json)                    (* extract_video_id(url) *)
| CallTranscriptApi (video_id : option str)   (* YouTubeTranscriptApi.get_transcript *)
| CallGenerate (prompt : str).                (* model.generate_content *)

(** Computations that log calls and may raise. *)
Definition M (A : Type) := list event -> res A * list event.

Definition ret {A} (a : A) : M A := fun log => (Ok a, log).

Definition bind {A B} (m : M A) (f : A -> M B) : M B :=
  fun log =>
    match m log with
    | (Ok a, log') => f a log'
    | (Raise e, log') => (Raise e, log')
    end.

Definition lift {A} (r : res A) : M A := fun log => (r, log).

Definition emit (ev : event) : M unit := fun log => (Ok tt, log ++ [ev]).

(** [try: body except Exception as e: handler e] *)
Definition try_except {A} (body : M A) (handler : exn -> M A) : M A :=
  fun log =>
    match body log with
    | (Ok a, log') => (Ok a, log')
    | (Raise e, log') => handler e log'
    end.

Declare Scope py_scope.
Delimit Scope py_scope with py.
Notation "x <- m ;; k" := (bind m (fun x => k))
  (at level 61, m at next level, right associativity) : py_scope.
Notation "' p <- m ;; k" := (bind m (fun x => match x with p => k end))
  (at level 61, p pattern, m at next level, right associativity) : py_scope.
Open Scope py_scope.

(** A caption entry of the transcript service; the code reads only
    ["text"]. *)
Record entry := Entry { text : str }.

(** The two external services, as they answer during one request: each
    either returns or raises. *)
Record services := Services {
  transcript_api : option str -> res (list entry);
  generative_model : str -> res str
}.

(** The Flask request, as far as the handler reads it: [request.json]
    returns the decoded body or raises (wrong content type, malformed
    JSON). *)
Record request := Request { request_json : res json }.

(** A response: [jsonify(...)] and the status code. *)
Record response := Response { body : json; status_code : Z }.

(** [d.get(key)] on a dict. *)
Fixpoint dict_get (key : str) (d : list (str * json)) : option json :=
  match d with
  | [] => None
  | (k, v) :: rest => if str_eqb k key then Some v else dict_get key rest
  end.

(** [obj.get(key)]: only a dict has the method. *)
Definition get (obj : json) (key : str) : res json :=
  match obj with
  | JObj d =>
      match dict_get key d with
      | Some v => Ok v
      | None => Ok JNull
      end
  | _ =>
      Raise (Exn "AttributeError"
               (py "'" ++ type_name obj ++ py "' object has no attribute 'get'"))
  end.

(** [re.search(pattern, x)]: a subject that is not a string raises. *)
Definition re_search (r : regex) (x : json) : res (option match_obj) :=
  match x with
  | JStr s => Ok (search r s)
  | _ =>
      Raise (Exn "TypeError"
               (py "expected string or bytes-like object, got '"
                  ++ type_name x ++ py "'"))
  end.

(* ================================================================== *)
(** ** The functions of [summary.py] *)

Definition extract_video_id (url : json) : res (option str) :=
  match re_search video_id_pattern url with
  | Ok video_id_match =>
      Ok (match video_id_match with
          | Some m => group1 m
          | None => None
          end)
  | Raise e => Raise e
  end.

Definition get_transcript (w : services) (video_id : option str)
  : M (option str * option str) :=
  try_except
    (_ <- emit (CallTranscriptApi video_id) ;;
     transcript <- lift (transcript_api w video_id) ;;
     ret (Some (join (py " ") (map text transcript)), None))
    (fun e => ret (None, Some (exn_str e))).

(** [f"{x}"] for a value that is a string or [None]. *)
Definition format (x : option str) : str :=
  match x with
  | Some s => s
  | None => py "None"
  end.

Definition prompt_of (transcript : option str) : str :=
  py "Please provide a concise summary of the following transcript. "
    ++ [10%N]
    ++ py "        Focus on the main points and key insights. Limit the summary to 3-4 paragraphs:"
    ++ [10%N; 10%N]
    ++ py "        " ++ format transcript.

Definition generate_summary (w : services) (transcript : option str)
  : M (option str * option str) :=
  try_except
    (let prompt := prompt_of transcript in
     _ <- emit (CallGenerate prompt) ;;
     response_text <- lift (generative_model w prompt) ;;
     ret (Some response_text, None))
    (fun e => ret (None, Some (exn_str e))).

(** A string or [None] as a JSON value. *)
Definition to_json (x : option str) : json :=
  match x with
  | Some s => JStr s
  | None => JNull
  end.

Definition jsonify (d : list (str * json)) : json := JObj d.

Definition error_body (message : str) : json :=
  jsonify [(py "error", JStr message); (py "status", JStr (py "error"))].

(** The handler of POST /summarize.  The [emit]s add nothing to what the
    code computes: they record the call of the parser here, and the calls
    of the two services inside [get_transcript] and [generate_summary]. *)
Definition summarize (w : services) (req : request) : M response :=
  try_except
    (body_json <- lift (request_json req) ;;
     video_url <- lift (get body_json (py "videoUrl")) ;;
     _ <- emit (CallExtract video_url) ;;
     video_id <- lift (extract_video_id video_url) ;;
     if negb (truthy video_id) then
       ret (Response (error_body (py "Invalid YouTube URL")) 400)
     else
       '(transcript, transcript_error) <- get_transcript w video_id ;;
       if truthy transcript_error then
         ret (Response
                (error_body (py "Error retrieving transcript: "
                               ++ format transcript_error)) 500)
       else
         '(summary, summary_error) <- generate_summary w transcript ;;
         if truthy summary_error then
           ret (Response
                  (error_body (py "Error generating summary: "
                                 ++ format summary_error)) 500)
         else
           ret (Response
                  (jsonify [(py "transcript", to_json transcript);
                            (py "summary", to_json summary);
                            (py "status", JStr (py "success"))]) 200))
    (fun e => ret (Response (error_body (exn_str e)) 500)).

(** Running the handler on a fresh log. *)
Definition run (w : services) (req : request) : res response * list event :=
  summarize w req [].

(** The field of a JSON object body. *)
Definition field (key : string) (r : response) : option json :=
  match body r with
  | JObj d => dict_get (py key) d
  | _ => None
  end.

(** Requests with a JSON object body. *)
Definition post (d : list (str * json)) : request := Request (Ok (JObj d)).
Definition post_url (url : str) : request := post [(py "videoUrl", JStr url)].


(** The characters of a video id: letters, digits, underscore, hyphen. *)
Definition video_id_char (c : char) : Prop :=
  (97 <= c <= 122 \/ 65 <= c <= 90 \/ 48 <= c <= 57 \/ c = 95 \/ c = 45)%N.

(** The pattern matches the part of [url] that starts at offset [start],
    with [id] as group 1. *)
Definition matches_at (r : regex) (url : str) (start : nat) (id : option str)
  : Prop :=
  exists pre m post,
    url = pre ++ m ++ post /\ List.length pre = start /\ Matches r m None id.

(** The pattern matches somewhere in [url]. *)
Definition matches_somewhere (r : regex) (url : str) : Prop :=
  exists start id, matches_at r url start id.

(* ================================================================== *)
(** ** Vocabulary of the statements about the handler *)

(** The texts, each followed by the separator except the last. *)
Fixpoint intersperse (sep : str) (texts : list str) : list str :=
  match texts with
  | [] => []
  | [t] => [t]
  | t :: rest => t :: sep :: intersperse sep rest
  end.

(** The concatenation of the texts with single spaces between them,
    following the wording of the specification. *)
Definition joined_by_spaces (texts : list str) : str :=
  List.concat (intersperse [32%N] texts).

(** The three steps of a request. *)
Inductive step := Parse | Fetch | Summarize.

Definition step_of (ev : event) : step :=
  match ev with
  | CallExtract _ => Parse
  | CallTranscriptApi _ => Fetch
  | CallGenerate _ => Summarize
  end.

Definition steps (log : list event) : list step := map step_of log.

(** The calls of a request are an initial part of: parse, fetch,
    summarize. *)
Definition in_order (l : list step) : Prop :=
  l = [] \/ l = [Parse] \/ l = [Parse; Fetch] \/ l = [Parse; Fetch; Summarize].

(** The transcript service, or the generative model, was invoked. *)
Definition invokes_transcript_api (log : list event) : Prop :=
  In Fetch (steps log).
Definition invokes_model (log : list event) : Prop :=
  In Summarize (steps log).

(** The request carries a JSON object whose ["videoUrl"] is the string
    [url]. *)
Definition posts_url (req : request) (url : str) : Prop :=
  exists d,
    request_json req = Ok (JObj d) /\
    dict_get (py "videoUrl") d = Some (JStr url).

(** The request carries a JSON object without a ["videoUrl"] key. *)
Definition posts_no_url (req : request) : Prop :=
  exists d,
    request_json req = Ok (JObj d) /\ dict_get (py "videoUrl") d = None.

Definition success : json := JStr (py "success").
Definition error : json := JStr (py "error").

(** A JSON string with the given text inside. *)
Definition string_containing (sub : str) (v : option json) : Prop :=
  exists s, v = Some (JStr s) /\ contains s sub.

(** A non-empty JSON string. *)
Definition non_empty_string (v : option json) : Prop :=
  exists c s, v = Some (JStr (c :: s)).

(** The body has a ["status"] of ["success"] or ["error"], and it is
    ["success"] exactly when the status code is 200. *)
Definition status_agrees (r : response) : Prop :=
  (field "status" r = Some success \/ field "status" r = Some error) /\
  (field "status" r = Some success <-> status_code r = 200%Z).

(** The handler answers [req] with [resp], having made the calls [log]. *)
Definition answers (w : services) (req : request) (resp : response)
  (log : list event) : Prop :=
  run w req = (Ok resp, log).

(** An [Exception()] without arguments: its [str] is empty. *)
Definition bare_exception : exn := Exn "Exception" [].

(** The transcript fetch and the summarizer both succeed on the request:
    the URL parses to [id], the transcript service returns [entries], and
    the model returns [summary] for the prompt built from the joined
    texts. *)
Definition fully_successful (w : services) (req : request)
  (entries : list entry) (summary : str) : Prop :=
  exists url id,
    posts_url req url /\
    extract_video_id (JStr url) = Ok (Some id) /\
    transcript_api w (Some id) = Ok entries /\
    generative_model w (prompt_of (Some (join (py " ") (map text entries))))
    = Ok summary.

(** The short link of the specification's example, and its id. *)
Definition short_link : str := py "https://youtu.be/dQw4w9WgXcQ".
Definition short_link_id : str := py "dQw4w9WgXcQ".

(** Services for the examples: a transcript service that returns the given
    entries or raises the given exception, and likewise for the model. *)
Definition answering (entries : list entry) (summary : str) : services :=
  Services (fun _ => Ok entries) (fun _ => Ok summary).
Definition transcript_raising (e : exn) (summary : str) : services :=
  Services (fun _ => Raise e) (fun _ => Ok summary).
Definition model_raising (entries : list entry) (e : exn) : services :=
  Services (fun _ => Ok entries) (fun _ => Raise e).

(* ================================================================== *)
(** ** Vocabulary of the statements about URLs *)

(** The three path forms that follow [youtube.com/] in the pattern. *)
Definition youtube_paths : regex :=
  Alt (Seq (Plus not_slash_nl_space)
           (Seq (Chr "/") (Seq (Plus non_space) (Chr "/"))))
      (Alt (Seq (Alt (Chr "v") (Seq (Chr "e") (Opt (lit "mbed")))) (Chr "/"))
           (Seq (LazyStar non_space) (Seq (Set_ query_sep) (lit "v=")))).

(** The prefix of the pattern around the path forms. *)
Definition prefix_with (paths : regex) : regex :=
  Seq (Opt (Seq (lit "http") (Seq (Opt (Chr "s")) (lit "://"))))
  (Seq (Opt (lit "www."))
       (Alt (Seq (lit "youtube.com/") paths) (lit "youtu.be/"))).

(** How a link may start before the host name. *)
Definition url_starts : list str :=
  [py ""; py "http://"; py "https://"; py "www."; py "http://www.";
   py "https://www."].

(** The path segments of the player links: [/v/], [/e/], [/embed/]. *)
Definition player_paths : list str := [py "v"; py "e"; py "embed"].

(** A text without [/]. *)
Definition slash_free (s : str) : Prop := ~ In 47%N s.

(* ================================================================== *)
(** ** Vocabulary of the statements about requests and responses *)

(** The request carries a JSON object whose ["videoUrl"] is [v]. *)
Definition posts_value (req : request) (v : json) : Prop :=
  exists d,
    request_json req = Ok (JObj d) /\ dict_get (py "videoUrl") d = Some v.

Definition is_string (v : json) : Prop := exists s, v = JStr s.
Definition is_object (v : json) : Prop := exists d, v = JObj d.

(** The two shapes of a response. *)
Definition error_response (r : response) : Prop :=
  exists message code,
    r = Response (error_body message) code /\ (code = 400 \/ code = 500)%Z.
Definition success_body (transcript summary : option str) : json :=
  jsonify [(py "transcript", to_json transcript);
           (py "summary", to_json summary);
           (py "status", success)].
Definition success_response (r : response) : Prop :=
  exists transcript summary, r = Response (success_body transcript summary) 200.

(** [s.startswith(p)] *)
Fixpoint startswith (s p : str) : bool :=
  match p, s with
  | [], _ => true
  | x :: p', y :: s' => (x =? y)%N && startswith s' p'
  | _ :: _, [] => false
  end.

(** [sub in s], computed. *)
Fixpoint containsb (s sub : str) : bool :=
  startswith s sub ||
  match s with
  | [] => false
  | _ :: t => containsb t sub
  end.

(** The instruction that precedes the transcript in the prompt. *)
Definition instruction : str := prompt_of (Some []).

(** Requests and exceptions for the examples. *)
Definition unsupported_media_type : exn :=
  Exn "UnsupportedMediaType" (py "415 Unsupported Media Type").
Definition quiet : services := answering [] [].

(* ================================================================== *)
(** ** The script of the page

    The click listener of [summarizeBtn] in [HTML_TEMPLATE], in its two
    parts: before and after its [await]s.  JavaScript strings are held as
    code points: the script only tests them for emptiness and for equality
    with an ASCII literal.  Numbers are left abstract: the script only
    tests them for truthiness. *)

Module Page.

Section Script.
Variable number : Type.
Variable number_is_falsy : number -> bool.     (* 0, -0 and NaN *)

(** A JavaScript value, as [response.json()] can yield it. *)
#[warnings="-register-all"] Inductive value :=
| Undefined
| Null
| Boolean (b : bool)
| Number (n : number)
| String_ (s : str)
| Array (l : list value)
| Object (props : list (str * value)).

(** [!!v] *)
Definition truthy_value (v : value) : bool :=
  match v with
  | Undefined | Null => false
  | Boolean b => b
  | Number n => negb (number_is_falsy n)
  | String_ [] => false
  | String_ (_ :: _) => true
  | Array _ | Object _ => true
  end.

(** [a || b] *)
Definition or_else (a b : value) : value := if truthy_value a then a else b.

(** [v === 'literal'] *)
Definition is_string_literal (v : value) (literal : str) : bool :=
  match v with
  | String_ s => str_eqb s literal
  | _ => false
  end.

Fixpoint own_property (name : str) (props : list (str * value)) : value :=
  match props with
  | [] => Undefined
  | (k, v) :: rest => if str_eqb k name then v else own_property name rest
  end.

(** [v.name] for the names that the script reads ([status], [transcript],
    [summary], [error]), none of which a prototype defines: reading a
    property of [null] or [undefined] throws, and a value that is not an
    object has none of them.  [None] stands for the [TypeError]. *)
Definition property (v : value) (name : str) : option value :=
  match v with
  | Undefined | Null => None
  | Object props => Some (own_property name props)
  | Boolean _ | Number _ | String_ _ | Array _ => Some Undefined
  end.

(** The elements that the script looks up by id. *)
Inductive element_id :=
| loadingSpinner
| errorContainer
| transcriptSection
| summarySection
| transcriptContent
| summaryContent.

Definition element_id_eqb (a b : element_id) : bool :=
  match a, b with
  | loadingSpinner, loadingSpinner
  | errorContainer, errorContainer
  | transcriptSection, transcriptSection
  | summarySection, summarySection
  | transcriptContent, transcriptContent
  | summaryContent, summaryContent => true
  | _, _ => false
  end.

(** An element: whether its class list holds [hidden], and the value last
    assigned to its [textContent] ([None]: none yet, the text is as the
    template has it). *)
Record element := Element { hidden : bool; textContent : option value }.

(** The page: the value of the input [videoUrl] and the elements. *)
Record document := Document {
  videoUrl : str;
  getElementById : element_id -> element
}.

(** What the script does to the world outside the document. *)
Inductive effect :=
| Alert (message : str)
| Fetch (url method content_type : str) (body : json)
| ConsoleError.

(** The outcome of [fetch] followed by [response.json()]: either of them
    rejects, or the body parses to a value. *)
Inductive fetched :=
| Rejected
| Resolved (data : value).

(** The network: what a POST of the given body is answered with. *)
Definition network := json -> fetched.

(** Statements of the script change the document, add effects, and may
    throw ([None]). *)
Definition state : Type := document * list effect.
Definition JS (A : Type) : Type := state -> option A * state.

Definition js_ret {A} (a : A) : JS A := fun st => (Some a, st).

Definition js_bind {A B} (m : JS A) (f : A -> JS B) : JS B :=
  fun st =>
    match m st with
    | (Some a, st1) => f a st1
    | (None, st1) => (None, st1)
    end.

Definition throw {A} : JS A := fun st => (None, st).

Definition perform (e : effect) : JS unit :=
  fun st => (Some tt, (fst st, snd st ++ [e])).

Definition update (id : element_id) (f : element -> element) : JS unit :=
  fun st =>
    let doc := fst st in
    (Some tt,
     (Document (videoUrl doc)
        (fun i => if element_id_eqb i id
                  then f (getElementById doc i)
                  else getElementById doc i),
      snd st)).

(** [el.classList.add('hidden')], [el.classList.remove('hidden')],
    [el.textContent = v] *)
Definition classList_add_hidden (id : element_id) : JS unit :=
  update id (fun el => Element true (textContent el)).
Definition classList_remove_hidden (id : element_id) : JS unit :=
  update id (fun el => Element false (textContent el)).
Definition set_textContent (id : element_id) (v : value) : JS unit :=
  update id (fun el => Element (hidden el) (Some v)).

Definition input_value : JS str := fun st => (Some (videoUrl (fst st)), st).

(** [try { body } catch (error) { handler } finally { cleanup }] *)
Definition try_catch_finally (body handler cleanup : JS unit) : JS unit :=
  fun st =>
    match body st with
    | (Some _, st1) => cleanup st1
    | (None, st1) =>
        match handler st1 with
        | (Some _, st2) => cleanup st2
        | (None, st2) =>
            match cleanup st2 with
            | (_, st3) => (None, st3)
            end
        end
    end.

(** [data.name] *)
Definition read (data : value) (name : string) : JS value :=
  match property data (py name) with
  | Some v => js_ret v
  | None => throw
  end.

Declare Scope js_scope.
Delimit Scope js_scope with js.
Notation "x <- m ;; k" := (js_bind m (fun x => k))
  (at level 61, m at next level, right associativity) : js_scope.
Notation "m ;;; k" := (js_bind m (fun _ => k))
  (at level 61, right associativity) : js_scope.

(** The listener is [async]: it runs until [await fetch(...)], hands
    control back to the browser, and goes on when the answer is there.
    Meanwhile the button stays enabled, so other clicks and other answers
    may run in between.

    Where the listener stands when it hands control back: at its end, or
    waiting for the answer to the body it posted. *)
Inductive suspension :=
| Finished
| Awaiting (posted : json).

(** The listener of the click on [summarizeBtn], from the click to
    [await fetch(...)].  The [fetch] call opens the [try] block; it rejects
    rather than throws, so nothing is caught in this part. *)
Definition on_click_begin : JS suspension :=
  (url <- input_value ;;
   if negb (truthy (Some url)) then
     perform (Alert (py "Please enter a YouTube URL")) ;;;
     js_ret Finished
   else
     (* Reset previous results *)
     classList_remove_hidden loadingSpinner ;;;
     classList_add_hidden errorContainer ;;;
     classList_add_hidden transcriptSection ;;;
     classList_add_hidden summarySection ;;;
     perform (Fetch (py "/summarize") (py "POST") (py "application/json")
                (JObj [(py "videoUrl", JStr url)])) ;;;
     js_ret (Awaiting (JObj [(py "videoUrl", JStr url)])))%js.

(** [await] on an outcome: a rejection is thrown into the [try] block. *)
Definition awaited (answer : fetched) : JS value :=
  match answer with
  | Rejected => throw
  | Resolved data => js_ret data
  end.

(** The listener from the answer to its end: the rest of the [try] block,
    the [catch] and the [finally].  The listener waits twice, for [fetch]
    and for [response.json()], and runs no statement between the two:
    [answer] is the outcome of both. *)
Definition on_click_resume (answer : fetched) : JS unit :=
  (try_catch_finally
     (data <- awaited answer ;;
      status <- read data "status" ;;
      if is_string_literal status (py "success") then
        transcript <- read data "transcript" ;;
        set_textContent transcriptContent transcript ;;;
        summary <- read data "summary" ;;
        set_textContent summaryContent summary ;;;
        classList_remove_hidden transcriptSection ;;;
        classList_remove_hidden summarySection
      else
        error <- read data "error" ;;
        set_textContent errorContainer
          (or_else error (String_ (py "An error occurred"))) ;;;
        classList_remove_hidden errorContainer)
     (perform ConsoleError ;;;
      set_textContent errorContainer
        (String_ (py "An error occurred while processing the request.")) ;;;
      classList_remove_hidden errorContainer)
     (classList_add_hidden loadingSpinner))%js.

(** The browser around the page: the document, the effects so far, and
    the bodies whose answers suspended listeners are waiting for, oldest
    first. *)
Record browser := Browser {
  page : document;
  effects : list effect;
  waiting : list json
}.

(** What happens to the page: the user changes the input, the user
    clicks the button, or the answer to the [n]-th waiting listener
    arrives.  Answers may arrive in any order. *)
Inductive event :=
| Typing (url : str)
| Click
| Answer (n : nat) (answer : fetched).

Fixpoint remove_nth {A} (n : nat) (l : list A) : list A :=
  match n, l with
  | _, [] => []
  | O, _ :: rest => rest
  | S n', x :: rest => x :: remove_nth n' rest
  end.

(** One event.  Each part of a listener runs to its next [await] or to its
    end before the next event is handled. *)
Definition step (e : event) (b : browser) : browser :=
  match e with
  | Typing url =>
      Browser (Document url (getElementById (page b))) (effects b) (waiting b)
  | Click =>
      match on_click_begin (page b, effects b) with
      | (Some (Awaiting posted), (doc, effs)) =>
          Browser doc effs (waiting b ++ [posted])
      | (_, (doc, effs)) => Browser doc effs (waiting b)
      end
  | Answer n answer =>
      match nth_error (waiting b) n with
      | Some _ =>
          match on_click_resume answer (page b, effects b) with
          | (_, (doc, effs)) => Browser doc effs (remove_nth n (waiting b))
          end
      | None => b
      end
  end.

(** A sequence of events, from left to right. *)
Definition play (events : list event) (b : browser) : browser :=
  fold_left (fun b e => step e b) events b.

(** A click that is answered before anything else happens: the two parts
    of the listener one after the other, with the answer of the network
    to the posted body. *)
Definition on_click (net : network) : JS unit :=
  (s <- on_click_begin ;;
   match s with
   | Finished => js_ret tt
   | Awaiting posted => on_click_resume (net posted)
   end)%js.

(** Such a click on a page, with no effect so far. *)
Definition click (net : network) (doc : document)
  : option unit * (document * list effect) :=
  on_click net (doc, []).

(** The body of a response of the server, as [response.json()] yields it.
    The handler's bodies hold no number; a body with one is not
    translated. *)
Fixpoint value_of (j : json) : option value :=
  match j with
  | JNull => Some Null
  | JBool b => Some (Boolean b)
  | JInt _ | JFloat _ => None
  | JStr s => Some (String_ s)
  | JArr l =>
      option_map Array
        ((fix all (l : list json) : option (list value) :=
            match l with
            | [] => Some []
            | x :: rest =>
                match value_of x, all rest with
                | Some v, Some vs => Some (v :: vs)
                | _, _ => None
                end
            end) l)
  | JObj d =>
      option_map Object
        ((fix all (d : list (str * json)) : option (list (str * value)) :=
            match d with
            | [] => Some []
            | (k, x) :: rest =>
                match value_of x, all rest with
                | Some v, Some vs => Some ((k, v) :: vs)
                | _, _ => None
                end
            end) d)
  end.

(** The page as the template has it: the spinner, the error box and the
    two result sections hidden, nothing assigned yet. *)
Definition loaded_page (url : str) : document :=
  Document url
    (fun id =>
       match id with
       | transcriptContent | summaryContent => Element false None
       | _ => Element true None
       end).

End Script.

End Page.

(* ================================================================== *)
(** ** The page and the server together *)

(** The body that the page posts for the input [url]:
    [JSON.stringify({ videoUrl })]. *)
Definition request_of (url : str) : json := JObj [(py "videoUrl", JStr url)].

(** The network when the page talks to the handler, with the services
    [w] behind it: the posted body is what [request.json] returns, and the
    body of the response is what [response.json()] parses. *)
Definition served_by (number : Type) (w : services) : Page.network number :=
  fun posted =>
    match run w (Request (Ok posted)) with
    | (Ok resp, _) =>
        match Page.value_of number (body resp) with
        | Some data => Page.Resolved data
        | None => Page.Rejected number
        end
    | (Raise _, _) => Page.Rejected number
    end.

(** What the page shows after a click: the error box, or the two result
    sections; the spinner is hidden in both. *)
Definition shows_error (number : Type) (doc : Page.document number) : Prop :=
  Page.hidden (Page.getElementById doc Page.loadingSpinner) = true /\
  Page.hidden (Page.getElementById doc Page.errorContainer) = false /\
  Page.hidden (Page.getElementById doc Page.transcriptSection) = true /\
  Page.hidden (Page.getElementById doc Page.summarySection) = true.
Definition shows_results (number : Type) (doc : Page.document number) : Prop :=
  Page.hidden (Page.getElementById doc Page.loadingSpinner) = true /\
  Page.hidden (Page.getElementById doc Page.errorContainer) = true /\
  Page.hidden (Page.getElementById doc Page.transcriptSection) = false /\
  Page.hidden (Page.getElementById doc Page.summarySection) = false.

(** The text assigned to an element. *)
Definition text_of (number : Type) (doc : Page.document number)
  (id : Page.element_id) : option (Page.value number) :=
  Page.textContent (Page.getElementById doc id).

(** The elements after each part of the listener, given the elements
    [before] it: after the reset that precedes the request; after an
    answer that ends in the results [transcript] and [summary]; after an
    answer that ends in the error box with the text [message]. *)
Definition after_reset (number : Type) (before : Page.document number)
  (id : Page.element_id) : Page.element number :=
  let el := Page.getElementById before id in
  match id with
  | Page.loadingSpinner => Page.Element false (Page.textContent el)
  | Page.errorContainer | Page.transcriptSection | Page.summarySection =>
      Page.Element true (Page.textContent el)
  | Page.transcriptContent | Page.summaryContent => el
  end.
Definition with_results (number : Type) (before : Page.document number)
  (transcript summary : Page.value number) (id : Page.element_id)
  : Page.element number :=
  let el := Page.getElementById before id in
  match id with
  | Page.loadingSpinner => Page.Element true (Page.textContent el)
  | Page.transcriptSection | Page.summarySection =>
      Page.Element false (Page.textContent el)
  | Page.transcriptContent => Page.Element (Page.hidden el) (Some transcript)
  | Page.summaryContent => Page.Element (Page.hidden el) (Some summary)
  | Page.errorContainer => el
  end.
Definition with_error (number : Type) (before : Page.document number)
  (message : Page.value number) (id : Page.element_id) : Page.element number :=
  let el := Page.getElementById before id in
  match id with
  | Page.loadingSpinner => Page.Element true (Page.textContent el)
  | Page.errorContainer => Page.Element false (Some message)
  | Page.transcriptSection | Page.summarySection
  | Page.transcriptContent | Page.summaryContent => el
  end.

(** The two texts of the script for failures. *)
Definition generic_error (number : Type) : Page.value number :=
  Page.String_ number (py "An error occurred").
Definition request_error (number : Type) : Page.value number :=
  Page.String_ number (py "An error occurred while processing the request.").

(** The answer says success: [data.status === 'success']. *)
Definition says_success (number : Type) (data : Page.value number) : Prop :=
  Page.property data (py "status") = Some (Page.String_ number (py "success")).

(** The outcome of a request is a success: it parsed to a value that says
    success. *)
Definition succeeded (number : Type) (answer : Page.fetched number) : Prop :=
  exists data, answer = Page.Resolved data /\ says_success data.

(** The text that the error box gets for an outcome that is no success:
    the answer's [error] if it is truthy, the generic text if it is not,
    and the text for failed requests when the request was rejected, the
    answer was not JSON, or it was [null]. *)
Definition error_text (number : Type) (number_is_falsy : number -> bool)
  (answer : Page.fetched number) : Page.value number :=
  match answer with
  | Page.Rejected _ => request_error number
  | Page.Resolved data =>
      match Page.property data (py "error") with
      | Some error => Page.or_else number_is_falsy error (generic_error number)
      | None => request_error number
      end
  end.

(** The outcome was thrown into the [catch] block. *)
Definition thrown (number : Type) (answer : Page.fetched number) : bool :=
  match answer with
  | Page.Rejected _ => true
  | Page.Resolved data =>
      match Page.property data (py "status") with
      | Some _ => false
      | None => true
      end
  end.

(** The error box and both result sections are visible at once. *)
Definition shows_both (number : Type) (doc : Page.document number) : Prop :=
  Page.hidden (Page.getElementById doc Page.errorContainer) = false /\
  Page.hidden (Page.getElementById doc Page.transcriptSection) = false /\
  Page.hidden (Page.getElementById doc Page.summarySection) = false.

(** Whether the spinner is hidden. *)
Definition spinner_hidden (number : Type) (doc : Page.document number) : Prop :=
  Page.hidden (Page.getElementById doc Page.loadingSpinner) = true.

(** The one request that a click makes. *)
Definition the_fetch (url : str) : Page.effect :=
  Page.Fetch (py "/summarize") (py "POST") (py "application/json")
    (request_of url).

(** Answers and pages for the examples. *)
Definition success_answer : Page.value Z :=
  Page.Object
    [(py "transcript", Page.String_ Z (py "never gonna"));
     (py "summary", Page.String_ Z (py "ok"));
     (py "status", Page.String_ Z (py "success"))].
Definition error_answer : Page.value Z :=
  Page.Object
    [(py "error", Page.String_ Z (py "Invalid YouTube URL"));
     (py "status", Page.String_ Z (py "error"))].
Definition answering_with (data : Page.value Z) : Page.network Z :=
  fun _ => Page.Resolved data.
Definition clicked (net : Page.network Z) (url : str)
  : option unit * (Page.document Z * list Page.effect) :=
  Page.click (Z.eqb 0) net (Page.loaded_page Z url).

(** A page where nothing has happened yet, and one whose listener waits
    for the answer to its request. *)
Definition fresh (url : str) : Page.browser Z :=
  Page.Browser (Page.loaded_page Z url) [] [].
Definition asked (url : str) : Page.browser Z :=
  Page.Browser (Page.loaded_page Z url) [] [request_of url].

(* ================================================================== *)
(** ** Vocabulary of the statement about links with a second address *)

(** What stands between the optional start of a link and the id, in the
    forms of link that the pattern is written for. *)
Definition link_paths : list str :=
  [py "youtu.be/"; py "youtube.com/watch?v="; py "youtube.com/v/";
   py "youtube.com/e/"; py "youtube.com/embed/"].

(** [url] is a link of one of these forms to the video [id]: the id is the
    token of 11 id characters that follows the path. *)
Definition links_to (url id : str) : Prop :=
  exists start path rest,
    In start url_starts /\ In path link_paths /\
    url = start ++ path ++ id ++ rest /\
    List.length id = 11 /\ Forall video_id_char id /\
    match rest with
    | [] => True
    | c :: _ => ~ video_id_char c
    end.

(** An embed link to the video of the specification's example, with the
    [origin] parameter of the player API. *)
Definition embed_with_origin : str :=
  py "https://www.youtube.com/embed/dQw4w9WgXcQ?enablejsapi=1&origin=https://mydomainname.com".

(** The pattern without the first of the three path forms: the player
    paths and the query form only. *)
Definition later_paths : regex :=
  Alt (Seq (Alt (Chr "v") (Seq (Chr "e") (Opt (lit "mbed")))) (Chr "/"))
      (Seq (LazyStar non_space) (Seq (Set_ query_sep) (lit "v="))).
Definition pattern_without_first_path : regex :=
  Seq (prefix_with later_paths) id_group.

(* ================================================================== *)
(** ** The matcher against the declarative semantics *)

Section MatcherFacts.
Variable R : Type.
Implicit Types (k : cont R) (s : str) (g : option str).

Lemma orelse_some (a : option R) b x :
  orelse a b = Some x -> a = Some x \/ (a = None /\ b tt = Some x).
Proof. destruct a; simpl; intros H; [left | right]; auto. Qed.

Lemma orelse_left (a : option R) b : a <> None -> orelse a b <> None.
Proof. destruct a; simpl; congruence. Qed.

Lemma orelse_right (a : option R) b : b tt <> None -> orelse a b <> None.
Proof. destruct a; simpl; congruence. Qed.

Lemma greedy_star_sound cs s g k x :
  greedy_star cs s g k = Some x ->
  exists s1 s2,
    s = s1 ++ s2 /\ forallb (in_set cs) s1 = true /\ k s2 g = Some x.
Proof.
  induction s as [|c t IH]; simpl; intros H.
  - exists [], []; auto.
  - destruct (in_set cs c) eqn:E.
    + apply orelse_some in H as [H | [_ H]].
      * destruct (IH H) as (s1 & s2 & -> & F & K).
        exists (c :: s1), s2; simpl; rewrite E, F; auto.
      * exists [], (c :: t); auto.
    + exists [], (c :: t); auto.
Qed.

Lemma lazy_star_sound cs s g k x :
  lazy_star cs s g k = Some x ->
  exists s1 s2,
    s = s1 ++ s2 /\ forallb (in_set cs) s1 = true /\ k s2 g = Some x.
Proof.
  induction s as [|c t IH]; simpl; intros H;
    apply orelse_some in H as [H | [_ H]].
  - exists [], []; auto.
  - discriminate.
  - exists [], (c :: t); auto.
  - destruct (in_set cs c) eqn:E; [|discriminate].
    destruct (IH H) as (s1 & s2 & -> & F & K).
    exists (c :: s1), s2; simpl; rewrite E, F; auto.
Qed.

Lemma greedy_star_complete cs s1 s2 g k :
  forallb (in_set cs) s1 = true -> k s2 g <> None ->
  greedy_star cs (s1 ++ s2) g k <> None.
Proof.
  induction s1 as [|c t IH]; simpl; intros F K.
  - destruct s2 as [|c t]; simpl; auto.
    destruct (in_set cs c); auto using orelse_right.
  - apply andb_prop in F as [-> F]. auto using orelse_left.
Qed.

Lemma lazy_star_complete cs s1 s2 g k :
  forallb (in_set cs) s1 = true -> k s2 g <> None ->
  lazy_star cs (s1 ++ s2) g k <> None.
Proof.
  induction s1 as [|c t IH]; simpl; intros F K.
  - destruct s2; simpl; auto using orelse_left.
  - apply andb_prop in F as [E F]. apply orelse_right. rewrite E. auto.
Qed.

(** Whatever the matcher returns comes from a match of the pattern at
    the front of the subject, followed by a success of the continuation. *)
Lemma bt_sound r : forall s g k x,
  bt r s g k = Some x ->
  exists s1 s2 g',
    s = s1 ++ s2 /\ Matches r s1 g g' /\ k s2 g' = Some x.
Proof.
  induction r as [|cs|r1 IH1 r2 IH2|r1 IH1 r2 IH2|r1 IH1|cs|cs|n r1 IH1|r1 IH1];
    intros s g k x H; simpl in H.
  - exists [], s, g; auto using MEps.
  - destruct s as [|c t]; [discriminate|].
    destruct (in_set cs c) eqn:E; [|discriminate].
    exists [c], t, g; auto using MSet.
  - apply IH1 in H as (s1 & s' & g1 & -> & M1 & H).
    apply IH2 in H as (s2 & s3 & g2 & -> & M2 & H).
    exists (s1 ++ s2), s3, g2. rewrite app_assoc. eauto using MSeq.
  - apply orelse_some in H as [H | [_ H]].
    + apply IH1 in H as (s1 & s2 & g' & -> & M1 & H); eauto 7 using MAltL.
    + apply IH2 in H as (s1 & s2 & g' & -> & M1 & H); eauto 7 using MAltR.
  - apply orelse_some in H as [H | [_ H]].
    + apply IH1 in H as (s1 & s2 & g' & -> & M1 & H); eauto 7 using MOptSome.
    + exists [], s, g; auto using MOptNone.
  - destruct s as [|c t]; [discriminate|].
    destruct (in_set cs c) eqn:E; [|discriminate].
    apply greedy_star_sound in H as (s1 & s2 & -> & F & H).
    exists (c :: s1), s2, g; auto using MPlus.
  - apply lazy_star_sound in H as (s1 & s2 & -> & F & H).
    exists s1, s2, g; auto using MLazyStar.
  - revert s g H. induction n as [|n IHn]; intros s g H.
    + exists [], s, g; auto using MTimesO.
    + apply IH1 in H as (s1 & s' & g1 & -> & M1 & H).
      apply IHn in H as (s2 & s3 & g2 & -> & M2 & H).
      exists (s1 ++ s2), s3, g2. rewrite app_assoc. eauto using MTimesS.
  - apply IH1 in H as (s1 & s2 & g' & -> & M1 & H).
    rewrite length_app, Nat.add_sub, firstn_app, Nat.sub_diag, firstn_all in H.
    simpl in H. rewrite app_nil_r in H.
    exists s1, s2, (Some s1); eauto using MGroup.
Qed.

(** When the pattern matches a front part of the subject and the
    continuation accepts the rest, the matcher finds a match. *)
Lemma bt_complete r s1 g g' :
  Matches r s1 g g' ->
  forall h s2 k, (forall h', k s2 h' <> None) -> bt r (s1 ++ s2) h k <> None.
Proof.
  induction 1 as
    [g|cs c g E|r1 r2 s1 s2 g g1 g2 _ IH1 _ IH2|r1 r2 s g g' _ IH
    |r1 r2 s g g' _ IH|r s g g' _ IH|r g|cs c s g E F|cs s g F|r g
    |n r s1 s2 g g1 g2 _ IH1 _ IH2|r s g g' _ IH];
    intros h s3 k K; simpl.
  - auto.
  - rewrite E. auto.
  - rewrite <- app_assoc. apply IH1. intros h'. apply IH2, K.
  - apply orelse_left. auto.
  - apply orelse_right. auto.
  - apply orelse_left. auto.
  - apply orelse_right. auto.
  - rewrite E. apply greedy_star_complete; auto.
  - apply lazy_star_complete; auto.
  - auto.
  - rewrite <- app_assoc. apply IH1. intros h'.
    exact (IH2 h' s3 k K).
  - apply IH. intros h'. apply K.
Qed.
End MatcherFacts.

(* ================================================================== *)
(** ** [re.search]: leftmost match, or no match at all *)

Lemma match_here_some r s m :
  match_here r s = Some m ->
  exists s1 s2, s = s1 ++ s2 /\ Matches r s1 None (group1 m).
Proof.
  unfold match_here. intros H.
  apply bt_sound in H as (s1 & s2 & g' & -> & Hm & [= <-]).
  exists s1, s2; auto.
Qed.

Lemma match_here_none r s :
  match_here r s = None ->
  forall s1 s2 h h', s = s1 ++ s2 -> ~ Matches r s1 h h'.
Proof.
  unfold match_here. intros H s1 s2 h h' -> Hm.
  refine (bt_complete Hm None s2 (fun _ g => Some (MatchObj g)) _ H).
  discriminate.
Qed.

Lemma search_some r s : forall m,
  search r s = Some m ->
  exists start,
    matches_at r s start (group1 m) /\
    forall start' id', matches_at r s start' id' -> start <= start'.
Proof.
  induction s as [|c t IH]; intros m; simpl;
    destruct (match_here r _) as [m0|] eqn:E; intros H; try discriminate.
  - injection H as ->. apply match_here_some in E as (s1 & s2 & E & Hm).
    exists 0; split; [exists [], s1, s2; auto | intros; lia].
  - injection H as ->. apply match_here_some in E as (s1 & s2 & E & Hm).
    exists 0; split; [exists [], s1, s2; auto | intros; lia].
  - destruct (IH _ H) as (start & (pre & w & post & -> & L & Hm) & Least).
    exists (S start); split.
    + exists (c :: pre), w, post; simpl; auto.
    + intros start' id' (pre' & w' & post' & E' & L' & Hm').
      destruct pre' as [|c' pre'].
      * exfalso. exact (@match_here_none _ _ E w' post' _ _ E' Hm').
      * simpl in E', L'. injection E' as -> E'. subst start'.
        apply le_n_S, (Least _ id'). exists pre', w', post'; auto.
Qed.

Lemma search_none r s : search r s = None -> ~ matches_somewhere r s.
Proof.
  induction s as [|c t IH]; simpl;
    destruct (match_here r _) eqn:E; try discriminate;
    intros H (start & id & pre & w & post & E' & _ & Hm).
  - destruct pre; [|discriminate].
    exact (@match_here_none _ _ E w post _ _ E' Hm).
  - destruct pre as [|c' pre].
    + exact (@match_here_none _ _ E w post _ _ E' Hm).
    + injection E' as -> E'. apply (IH H).
      exists (List.length pre), id, pre, w, post; auto.
Qed.

(* ================================================================== *)
(** ** The shape of what the pattern captures *)

Lemma in_id_char c : in_set id_char c = true -> video_id_char c.
Proof.
  unfold in_set, id_char, video_id_char; simpl.
  rewrite !orb_true_iff, !andb_true_iff, !N.leb_le, !N.eqb_eq. lia.
Qed.

Lemma times_set_matches cs : forall n s g g',
  Matches (Times n (Set_ cs)) s g g' ->
  List.length s = n /\ forallb (in_set cs) s = true /\ g' = g.
Proof.
  induction n as [|n IH]; intros s g g' H; inversion H; subst; auto.
  match goal with
  | H1 : Matches (Set_ _) _ _ _, H2 : Matches (Times _ _) _ _ _ |- _ =>
      inversion H1; subst; apply IH in H2 as (L & F & ->)
  end.
  simpl. rewrite L. repeat split; auto.
  apply andb_true_intro; auto.
Qed.

Lemma id_group_matches s g g' :
  Matches id_group s g g' ->
  g' = Some s /\ List.length s = 11 /\ Forall video_id_char s.
Proof.
  unfold id_group. intros H. inversion H; subst.
  match goal with
  | H1 : Matches (Times _ _) _ _ _ |- _ =>
      apply times_set_matches in H1 as (L & F & _)
  end.
  repeat split; auto.
  rewrite forallb_forall in F. apply Forall_forall.
  intros c Hc. apply in_id_char, F, Hc.
Qed.

Lemma video_id_pattern_matches w g g' :
  Matches video_id_pattern w g g' ->
  exists p id,
    w = p ++ id /\ g' = Some id /\ List.length id = 11 /\
    Forall video_id_char id.
Proof.
  unfold video_id_pattern. intros H. inversion H; subst.
  match goal with
  | H1 : Matches id_group _ _ _ |- _ =>
      apply id_group_matches in H1 as (-> & L & F)
  end.
  eauto 8.
Qed.

(* ================================================================== *)
(** ** The URL parser *)

(** On a string, [extract_video_id] never raises. *)
Lemma extract_video_id_str url :
  extract_video_id (JStr url) =
  Ok (match search video_id_pattern url with
      | Some m => group1 m
      | None => None
      end).
Proof. reflexivity. Qed.

(** The two cases of the parser on a string: no match anywhere, or the
    capture of the leftmost match. *)
Lemma extract_video_id_cases (url : str) :
  (extract_video_id (JStr url) = Ok None /\
   ~ matches_somewhere video_id_pattern url)
  \/
  (exists id start,
     extract_video_id (JStr url) = Ok (Some id) /\
     List.length id = 11 /\ Forall video_id_char id /\
     matches_at video_id_pattern url start (Some id) /\
     forall start' id',
       matches_at video_id_pattern url start' id' -> start <= start').
Proof.
  rewrite extract_video_id_str.
  destruct (search video_id_pattern url) as [m|] eqn:E.
  - right. apply search_some in E as (start & At & Least).
    pose proof At as (pre & w & post & _ & _ & Hm).
    apply video_id_pattern_matches in Hm as (p & id & _ & G & L & F).
    rewrite G in *. eauto 8.
  - left. auto using search_none.
Qed.

(** A string that the pattern matches somewhere yields an id. *)
Lemma extract_video_id_matching url :
  matches_somewhere video_id_pattern url ->
  exists id,
    extract_video_id (JStr url) = Ok (Some id) /\
    List.length id = 11 /\ Forall video_id_char id.
Proof.
  intros Hm.
  destruct (extract_video_id_cases url) as [[_ N]|(id & ? & E & L & F & _)];
    [contradiction | eauto].
Qed.

(** A string that the pattern matches nowhere yields [None]. *)
Lemma extract_video_id_non_matching url :
  ~ matches_somewhere video_id_pattern url ->
  extract_video_id (JStr url) = Ok None.
Proof.
  intros N.
  destruct (extract_video_id_cases url) as [[E _]|(id & s & _ & _ & _ & At & _)];
    [assumption | exfalso; apply N; exists s, (Some id); exact At].
Qed.

(** What the parser returns is never falsy unless it is [None]. *)
Lemma extract_video_id_truthy url id :
  extract_video_id (JStr url) = Ok (Some id) -> truthy (Some id) = true.
Proof.
  intros E.
  destruct (extract_video_id_cases url) as [[E' _]|(id' & ? & E' & L & _)];
    rewrite E in E'; [discriminate|].
  injection E' as <-. destruct id; [discriminate | reflexivity].
Qed.

(** C7.  The short link ["https://youtu.be/dQw4w9WgXcQ"] yields the id
    ["dQw4w9WgXcQ"]. *)
Theorem extract_video_id_short_link :
  extract_video_id (JStr (py "https://youtu.be/dQw4w9WgXcQ"))
  = Ok (Some (py "dQw4w9WgXcQ")).
Proof. vm_compute. reflexivity. Qed.

(* ================================================================== *)
(** ** The transcript fetcher *)

Lemma join_joined_by_spaces texts :
  join (py " ") texts = joined_by_spaces texts.
Proof.
  unfold joined_by_spaces.
  induction texts as [|t [|t' rest] IH]; simpl.
  - reflexivity.
  - symmetry. apply app_nil_r.
  - simpl in IH. rewrite IH. reflexivity.
Qed.

Lemma get_transcript_returns w video_id entries log :
  transcript_api w video_id = Ok entries ->
  get_transcript w video_id log =
  (Ok (Some (join (py " ") (map text entries)), None),
   log ++ [CallTranscriptApi video_id]).
Proof.
  intros H. unfold get_transcript, try_except, bind, emit, lift, ret.
  rewrite H. reflexivity.
Qed.

Lemma get_transcript_raises w video_id e log :
  transcript_api w video_id = Raise e ->
  get_transcript w video_id log =
  (Ok (None, Some (exn_str e)), log ++ [CallTranscriptApi video_id]).
Proof.
  intros H. unfold get_transcript, try_except, bind, emit, lift, ret.
  rewrite H. reflexivity.
Qed.

(** C6.  When the transcript service returns a list of caption entries,
    [get_transcript] returns the texts of the entries, concatenated with
    single spaces between them, as its first component and [None] as its
    error component. *)
Theorem get_transcript_joins_texts w video_id entries log :
  transcript_api w video_id = Ok entries ->
  exists log',
    get_transcript w video_id log =
    (Ok (Some (joined_by_spaces (map text entries)), None), log').
Proof.
  intros H. rewrite (get_transcript_returns _ _ _ H), join_joined_by_spaces.
  eauto.
Qed.

Lemma get_transcript_joins_texts_witness :
  exists log',
    get_transcript (answering [Entry (py "never"); Entry (py "gonna")] [])
      (Some short_link_id) [] =
    (Ok (Some (py "never gonna"), None), log').
Proof.
  exact (@get_transcript_joins_texts
           (answering [Entry (py "never"); Entry (py "gonna")] [])
           (Some short_link_id) [Entry (py "never"); Entry (py "gonna")] []
           eq_refl).
Defined.

Lemma generate_summary_returns w transcript summary log :
  generative_model w (prompt_of transcript) = Ok summary ->
  generate_summary w transcript log =
  (Ok (Some summary, None), log ++ [CallGenerate (prompt_of transcript)]).
Proof.
  intros H. unfold generate_summary, try_except, bind, emit, lift, ret.
  rewrite H. reflexivity.
Qed.

Lemma generate_summary_raises w transcript e log :
  generative_model w (prompt_of transcript) = Raise e ->
  generate_summary w transcript log =
  (Ok (None, Some (exn_str e)), log ++ [CallGenerate (prompt_of transcript)]).
Proof.
  intros H. unfold generate_summary, try_except, bind, emit, lift, ret.
  rewrite H. reflexivity.
Qed.

(* ================================================================== *)
(** ** The handler, path by path *)

Ltac unfold_handler :=
  unfold run, summarize, try_except, bind, lift, emit, ret.

Ltac enter_handler Hreq :=
  let d := fresh "d" in
  let Hj := fresh "Hj" in
  let Hd := fresh "Hd" in
  destruct Hreq as (d & Hj & Hd);
  unfold_handler; rewrite Hj; unfold get; rewrite Hd.

Lemma run_invalid_url w req url :
  posts_url req url ->
  extract_video_id (JStr url) = Ok None ->
  run w req =
  (Ok (Response (error_body (py "Invalid YouTube URL")) 400),
   [CallExtract (JStr url)]).
Proof.
  intros Hreq Hid. enter_handler Hreq. rewrite Hid. reflexivity.
Qed.

Lemma run_transcript_error w req url id e :
  posts_url req url ->
  extract_video_id (JStr url) = Ok (Some id) ->
  transcript_api w (Some id) = Raise e ->
  exn_str e <> [] ->
  run w req =
  (Ok (Response
         (error_body (py "Error retrieving transcript: " ++ exn_str e)) 500),
   [CallExtract (JStr url); CallTranscriptApi (Some id)]).
Proof.
  intros Hreq Hid Ht Hne. enter_handler Hreq.
  rewrite Hid, (extract_video_id_truthy Hid). cbn [negb].
  rewrite (get_transcript_raises _ _ _ Ht).
  destruct (exn_str e); [contradiction | reflexivity].
Qed.

Lemma run_summary_error w req url id entries e :
  posts_url req url ->
  extract_video_id (JStr url) = Ok (Some id) ->
  transcript_api w (Some id) = Ok entries ->
  generative_model w (prompt_of (Some (join (py " ") (map text entries))))
  = Raise e ->
  exn_str e <> [] ->
  run w req =
  (Ok (Response
         (error_body (py "Error generating summary: " ++ exn_str e)) 500),
   [CallExtract (JStr url); CallTranscriptApi (Some id);
    CallGenerate (prompt_of (Some (join (py " ") (map text entries))))]).
Proof.
  intros Hreq Hid Ht Hs Hne. enter_handler Hreq.
  rewrite Hid, (extract_video_id_truthy Hid). cbn [negb].
  rewrite (get_transcript_returns _ _ _ Ht). cbn [truthy].
  rewrite (generate_summary_raises _ _ _ Hs).
  destruct (exn_str e); [contradiction | reflexivity].
Qed.

Lemma run_success w req url id entries summary :
  posts_url req url ->
  extract_video_id (JStr url) = Ok (Some id) ->
  transcript_api w (Some id) = Ok entries ->
  generative_model w (prompt_of (Some (join (py " ") (map text entries))))
  = Ok summary ->
  run w req =
  (Ok (Response
         (jsonify
            [(py "transcript", JStr (join (py " ") (map text entries)));
             (py "summary", JStr summary);
             (py "status", success)]) 200),
   [CallExtract (JStr url); CallTranscriptApi (Some id);
    CallGenerate (prompt_of (Some (join (py " ") (map text entries))))]).
Proof.
  intros Hreq Hid Ht Hs. enter_handler Hreq.
  rewrite Hid, (extract_video_id_truthy Hid). cbn [negb].
  rewrite (get_transcript_returns _ _ _ Ht). cbn [truthy].
  rewrite (generate_summary_returns _ _ _ Hs). reflexivity.
Qed.

Lemma run_no_url w req :
  posts_no_url req ->
  run w req =
  (Ok (Response
         (error_body
            (py "expected string or bytes-like object, got 'NoneType'")) 500),
   [CallExtract JNull]).
Proof.
  intros Hreq. enter_handler Hreq. reflexivity.
Qed.

(* ================================================================== *)
(** ** The handler: the invalid-URL response *)

(** C2.  A request whose ["videoUrl"] is a string from which
    [extract_video_id] gets [None] is answered with status 400 and a body
    whose ["status"] is ["error"]; neither the transcript service nor the
    generative model is invoked. *)
Theorem unparseable_url_is_rejected w req url :
  posts_url req url ->
  extract_video_id (JStr url) = Ok None ->
  exists resp log,
    answers w req resp log /\
    status_code resp = 400%Z /\
    field "status" resp = Some error /\
    ~ invokes_transcript_api log /\ ~ invokes_model log.
Proof.
  intros Hreq Hid. unfold answers. rewrite (run_invalid_url w Hreq Hid).
  do 2 eexists; split; [reflexivity|].
  repeat split; unfold invokes_transcript_api, invokes_model; simpl;
    intros [H|[]]; discriminate.
Qed.

Lemma unparseable_url_is_rejected_witness :
  exists resp log,
    answers (answering [] []) (post_url (py "not a url")) resp log /\
    status_code resp = 400%Z /\
    field "status" resp = Some error /\
    ~ invokes_transcript_api log /\ ~ invokes_model log.
Proof.
  apply (@unparseable_url_is_rejected (answering [] [])
           (post_url (py "not a url")) (py "not a url")).
  - exists [(py "videoUrl", JStr (py "not a url"))]. split; reflexivity.
  - vm_compute. reflexivity.
Defined.

(** C10.  A request whose JSON object has no ["videoUrl"] key is answered
    with status 500 and a body whose ["status"] is ["error"]: the value
    handed to [extract_video_id] is [None], [re.search] raises, and the
    handler's catch-all branch reports the text of that exception. *)
Theorem missing_url_is_a_server_error w req :
  posts_no_url req ->
  exists resp log e,
    answers w req resp log /\
    status_code resp = 500%Z /\
    field "status" resp = Some error /\
    extract_video_id JNull = Raise e /\
    field "error" resp = Some (JStr (exn_str e)).
Proof.
  intros Hreq. unfold answers. rewrite (run_no_url w Hreq).
  do 3 eexists; split; [reflexivity|].
  repeat split; reflexivity.
Qed.

Lemma missing_url_is_a_server_error_witness :
  exists resp log e,
    answers (answering [] []) (post []) resp log /\
    status_code resp = 500%Z /\
    field "status" resp = Some error /\
    extract_video_id JNull = Raise e /\
    field "error" resp = Some (JStr (exn_str e)).
Proof.
  apply (@missing_url_is_a_server_error (answering [] []) (post [])).
  exists []. split; reflexivity.
Defined.

(* ================================================================== *)
(** ** The handler: every request is answered *)

Lemma error_response_agrees message code :
  code <> 200%Z -> status_agrees (Response (error_body message) code).
Proof.
  intros Hc. split; [right; reflexivity|].
  split; [discriminate | intros H; contradiction].
Qed.

Lemma success_response_agrees transcript summary :
  status_agrees
    (Response
       (jsonify [(py "transcript", transcript); (py "summary", summary);
                 (py "status", success)]) 200).
Proof. split; [left; reflexivity|]. split; reflexivity. Qed.

(** Every request gets a response, whatever the body and whatever the
    services do; its status fields agree and its calls are in order. *)
Lemma run_total w req :
  exists resp log,
    answers w req resp log /\ status_agrees resp /\ in_order (steps log).
Proof.
  unfold answers, in_order. unfold_handler.
  destruct (request_json req) as [j|e];
    [|do 2 eexists; split; [reflexivity|];
      split; [apply error_response_agrees; discriminate | auto]].
  destruct (get j (py "videoUrl")) as [u|e];
    [|do 2 eexists; split; [reflexivity|];
      split; [apply error_response_agrees; discriminate | auto]].
  destruct (extract_video_id u) as [video_id|e];
    [|do 2 eexists; split; [reflexivity|];
      split; [apply error_response_agrees; discriminate | simpl; auto]].
  destruct (truthy video_id); cbn [negb];
    [|do 2 eexists; split; [reflexivity|];
      split; [apply error_response_agrees; discriminate | simpl; auto]].
  unfold get_transcript, try_except, bind, lift, emit, ret.
  destruct (transcript_api w video_id) as [entries|e].
  - cbn [truthy].
    unfold generate_summary, try_except, bind, lift, emit, ret.
    destruct (generative_model w _) as [summary|e].
    + do 2 eexists; split; [reflexivity|].
      split; [apply success_response_agrees | simpl; auto].
    + destruct (truthy (Some (exn_str e)));
        do 2 eexists; (split; [reflexivity|]);
        (split; [first [apply success_response_agrees
                       | apply error_response_agrees; discriminate]
                | simpl; auto]).
  - destruct (truthy (Some (exn_str e))).
    + do 2 eexists; split; [reflexivity|].
      split; [apply error_response_agrees; discriminate | simpl; auto].
    + unfold generate_summary, try_except, bind, lift, emit, ret.
      destruct (generative_model w _) as [summary|e'].
      * do 2 eexists; split; [reflexivity|].
        split; [apply success_response_agrees | simpl; auto].
      * destruct (truthy (Some (exn_str e')));
          do 2 eexists; (split; [reflexivity|]);
          (split; [first [apply success_response_agrees
                         | apply error_response_agrees; discriminate]
                  | simpl; auto]).
Qed.

(** C9.  Every request gets a response whose body is a JSON object with a
    ["status"] of ["success"] or ["error"], and the ["status"] is
    ["success"] exactly when the status code is 200; this covers the
    catch-all branch, since no exception escapes the handler. *)
Theorem status_field_agrees_with_code w req :
  exists resp log,
    answers w req resp log /\
    (field "status" resp = Some success \/ field "status" resp = Some error) /\
    (field "status" resp = Some success <-> status_code resp = 200%Z).
Proof.
  destruct (run_total w req) as (resp & log & H & [S1 S2] & _). eauto.
Qed.

(** The steps of every request are an initial part of: parse, fetch,
    summarize; hence in this order and each at most once. *)
Lemma steps_in_order w req :
  exists resp log, answers w req resp log /\ in_order (steps log).
Proof.
  destruct (run_total w req) as (resp & log & H & _ & O). eauto.
Qed.

(* ================================================================== *)
(** ** The handler: failures of the services *)

Lemma contains_suffix (a b : str) : contains (a ++ b) b.
Proof. exists a, []. rewrite app_nil_r. reflexivity. Qed.

(** A failure of the transcript service whose text is not empty is
    answered with status 500 and that text in the ["error"] field, and the
    model is not invoked. *)
Lemma transcript_failure_is_reported w req url id e :
  posts_url req url ->
  extract_video_id (JStr url) = Ok (Some id) ->
  transcript_api w (Some id) = Raise e ->
  exn_str e <> [] ->
  exists resp log,
    answers w req resp log /\
    status_code resp = 500%Z /\
    field "status" resp = Some error /\
    string_containing (exn_str e) (field "error" resp) /\
    ~ invokes_model log.
Proof.
  intros Hreq Hid Ht Hne. unfold answers.
  rewrite (run_transcript_error w Hreq Hid Ht Hne).
  do 2 eexists; split; [reflexivity|]. repeat split.
  - eexists; split; [reflexivity | apply contains_suffix].
  - unfold invokes_model; simpl. intros [H|[H|[]]]; discriminate.
Qed.

(** A failure of the model whose text is not empty is answered with
    status 500 and that text in the ["error"] field. *)
Lemma summary_failure_is_reported w req url id entries e :
  posts_url req url ->
  extract_video_id (JStr url) = Ok (Some id) ->
  transcript_api w (Some id) = Ok entries ->
  generative_model w (prompt_of (Some (join (py " ") (map text entries))))
  = Raise e ->
  exn_str e <> [] ->
  exists resp log,
    answers w req resp log /\
    status_code resp = 500%Z /\
    field "status" resp = Some error /\
    string_containing (exn_str e) (field "error" resp).
Proof.
  intros Hreq Hid Ht Hs Hne. unfold answers.
  rewrite (run_summary_error w Hreq Hid Ht Hs Hne).
  do 2 eexists; split; [reflexivity|]. repeat split.
  eexists; split; [reflexivity | apply contains_suffix].
Qed.

(** C3, at an exception without text.  The transcript service raises
    [Exception()]: [get_transcript] returns the error [""], which the
    handler's test [if transcript_error:] takes for no error; the model is
    asked to summarize [None] and the request is answered with status 200
    and ["status": "success"], without an ["error"] field. *)
Theorem transcript_failure_without_text_is_a_success :
  transcript_api (transcript_raising bare_exception (py "ok"))
    (Some short_link_id) = Raise bare_exception /\
  answers (transcript_raising bare_exception (py "ok")) (post_url short_link)
    (Response
       (jsonify [(py "transcript", JNull); (py "summary", JStr (py "ok"));
                 (py "status", success)]) 200)
    [CallExtract (JStr short_link); CallTranscriptApi (Some short_link_id);
     CallGenerate (prompt_of None)].
Proof. split; [reflexivity | vm_compute; reflexivity]. Qed.

(** C4, at an exception without text.  The transcript is fetched and the
    model raises [Exception()]: [generate_summary] returns the error [""],
    which the handler's test [if summary_error:] takes for no error; the
    request is answered with status 200 and ["status": "success"], with a
    null ["summary"] and without an ["error"] field. *)
Theorem summary_failure_without_text_is_a_success :
  generative_model (model_raising [Entry (py "never")] bare_exception)
    (prompt_of (Some (py "never"))) = Raise bare_exception /\
  answers (model_raising [Entry (py "never")] bare_exception)
    (post_url short_link)
    (Response
       (jsonify [(py "transcript", JStr (py "never")); (py "summary", JNull);
                 (py "status", success)]) 200)
    [CallExtract (JStr short_link); CallTranscriptApi (Some short_link_id);
     CallGenerate (prompt_of (Some (py "never")))].
Proof. split; [reflexivity | vm_compute; reflexivity]. Qed.

(** C8, at an exception without text.  The transcript service raises
    [Exception()], [get_transcript] reports it in its error component, and
    the model is invoked all the same, on the transcript [None]. *)
Theorem summarizer_runs_after_failed_fetch :
  get_transcript (transcript_raising bare_exception (py "ok"))
    (Some short_link_id) [CallExtract (JStr short_link)]
  = (Ok (None, Some (exn_str bare_exception)),
     [CallExtract (JStr short_link); CallTranscriptApi (Some short_link_id)])
  /\
  exists resp log,
    answers (transcript_raising bare_exception (py "ok"))
      (post_url short_link) resp log /\
    steps log = [Parse; Fetch; Summarize] /\
    invokes_model log.
Proof.
  split; [reflexivity|].
  do 2 eexists; split; [vm_compute; reflexivity|].
  split; [reflexivity | right; right; left; reflexivity].
Qed.

(* ================================================================== *)
(** ** The handler: the successful response *)

(** C5, as amended.  When the URL parses, the transcript service returns
    and the model returns, the request is answered with status 200 and
    ["status": "success"]; the ["transcript"] field is the string of the
    caption texts joined by single spaces and the ["summary"] field is the
    string that the model returned. *)
Theorem successful_request w req entries summary :
  fully_successful w req entries summary ->
  exists resp log,
    answers w req resp log /\
    status_code resp = 200%Z /\
    field "status" resp = Some success /\
    field "transcript" resp = Some (JStr (joined_by_spaces (map text entries))) /\
    field "summary" resp = Some (JStr summary).
Proof.
  intros (url & id & Hreq & Hid & Ht & Hs). unfold answers.
  rewrite (run_success w Hreq Hid Ht Hs), <- join_joined_by_spaces.
  do 2 eexists; split; [reflexivity|]. repeat split.
Qed.

Lemma successful_request_witness :
  exists resp log,
    answers (answering [Entry (py "never"); Entry (py "gonna")] (py "ok"))
      (post_url short_link) resp log /\
    status_code resp = 200%Z /\
    field "status" resp = Some success /\
    field "transcript" resp = Some (JStr (py "never gonna")) /\
    field "summary" resp = Some (JStr (py "ok")).
Proof.
  apply (@successful_request
           (answering [Entry (py "never"); Entry (py "gonna")] (py "ok"))
           (post_url short_link)
           [Entry (py "never"); Entry (py "gonna")] (py "ok")).
  exists short_link, short_link_id. repeat split.
  exists [(py "videoUrl", JStr short_link)]. split; reflexivity.
Defined.

(** C5, as stated, fails: a transcript service that returns no caption
    entries and a model that returns the empty string make a fully
    successful request whose ["transcript"] and ["summary"] are empty. *)
Lemma successful_request_with_empty_fields :
  ~ (forall w req entries summary,
       fully_successful w req entries summary ->
       exists resp log,
         answers w req resp log /\
         status_code resp = 200%Z /\
         field "status" resp = Some success /\
         non_empty_string (field "transcript" resp) /\
         non_empty_string (field "summary" resp)).
Proof.
  intros H.
  destruct (H (answering [] []) (post_url short_link) [] [])
    as (resp & log & Hr & _ & _ & (c & s & Ht) & _).
  - exists short_link, short_link_id. repeat split.
    exists [(py "videoUrl", JStr short_link)]. split; reflexivity.
  - unfold answers in Hr. vm_compute in Hr. injection Hr as <- _.
    discriminate Ht.
Qed.

(* ================================================================== *)
(** ** The handler: what guards each call *)

Ltac no_such_call :=
  let H := fresh in
  intros H; exfalso; cbv in H;
  repeat match goal with
         | H : _ \/ _ |- _ => destruct H
         | H : False |- _ => destruct H
         | H : _ = _ |- _ => discriminate H
         end.

(** The transcript service is invoked only on an id that the parser
    produced; the model is invoked only after the transcript service was,
    and then the service returned or raised an exception without text. *)
Lemma calls_are_guarded w req resp log :
  answers w req resp log ->
  (invokes_transcript_api log ->
   exists u id,
     In (CallExtract u) log /\ extract_video_id u = Ok (Some id) /\
     In (CallTranscriptApi (Some id)) log) /\
  (invokes_model log ->
   exists id,
     In (CallTranscriptApi id) log /\
     forall e, transcript_api w id = Raise e -> exn_str e = []).
Proof.
  unfold answers. unfold_handler.
  destruct (request_json req) as [j|e];
    [|intros [= <- <-]; split; no_such_call].
  destruct (get j (py "videoUrl")) as [u|e];
    [|intros [= <- <-]; split; no_such_call].
  destruct (extract_video_id u) as [[id|]|e] eqn:Hid;
    try (intros [= <- <-]; split; no_such_call).
  destruct (truthy (Some id)) eqn:Htr; cbn [negb];
    [|intros [= <- <-]; split; no_such_call].
  unfold get_transcript, generate_summary, try_except, bind, lift, emit, ret.
  cbv beta iota zeta.
  destruct (transcript_api w (Some id)) as [entries|e] eqn:Ht.
  - cbn [truthy].
    destruct (generative_model w _) as [summary|e];
      [|destruct (truthy (Some (exn_str e)))];
      intros [= <- <-]; (split; intros _;
        [exists u, id; simpl; auto
        |exists (Some id); split; [simpl; auto | congruence]]).
  - destruct (exn_str e) as [|c' msg] eqn:Hmsg; cbn [truthy].
    + destruct (generative_model w _) as [summary|e'];
        [|destruct (truthy (Some (exn_str e')))];
        intros [= <- <-]; (split; intros _;
          [exists u, id; simpl; auto
          |exists (Some id); split;
           [simpl; auto | intros e0 He0; congruence]]).
    + intros [= <- <-]. split; [|no_such_call].
      intros _. exists u, id; simpl; auto.
Qed.

(* ================================================================== *)
(** ** Substrings, computed *)

Lemma startswith_spec : forall p s,
  startswith s p = true <-> exists rest, s = p ++ rest.
Proof.
  induction p as [|x p IH]; intros s; simpl.
  - split; [intros _; exists s; reflexivity | destruct s; reflexivity].
  - destruct s as [|y s]; simpl.
    + split; [discriminate | intros (rest & [=])].
    + rewrite andb_true_iff, N.eqb_eq, IH. split.
      * intros (-> & rest & ->). exists rest. reflexivity.
      * intros (rest & [= -> ->]). split; [reflexivity | exists rest; reflexivity].
Qed.

Lemma containsb_spec sub : forall s,
  containsb s sub = true <-> contains s sub.
Proof.
  unfold contains. induction s as [|c s IH]; cbn [containsb].
  - rewrite orb_false_r, startswith_spec. split.
    + intros (rest & E). exists [], rest. exact E.
    + intros (before & after & E). destruct before as [|b before].
      * exists after. exact E.
      * discriminate E.
  - rewrite orb_true_iff, startswith_spec, IH. split.
    + intros [(rest & E)|(before & after & E)].
      * exists [], rest. exact E.
      * exists (c :: before), after. rewrite E. reflexivity.
    + intros (before & after & E). destruct before as [|b before].
      * left. exists after. exact E.
      * right. injection E as _ E. exists before, after. exact E.
Qed.

Lemma not_contains s sub : containsb s sub = false -> ~ contains s sub.
Proof.
  intros H C. apply containsb_spec in C. rewrite H in C. discriminate.
Qed.

(* ================================================================== *)
(** ** The parser on the usual forms of a link *)

Lemma url_prefix_paths : url_prefix = prefix_with youtube_paths.
Proof. reflexivity. Qed.

Lemma bt_short_link R start paths tail g (K : cont R) :
  In start url_starts ->
  bt (prefix_with paths) (start ++ py "youtu.be/" ++ tail) g K = K tail g.
Proof.
  intros H. repeat (destruct H as [<-|H]); try contradiction;
  cbn; destruct (K tail g); reflexivity.
Qed.

Lemma bt_youtube R start paths tail g (K : cont R) :
  In start url_starts ->
  bt (prefix_with paths) (start ++ py "youtube.com/" ++ tail) g K
  = bt paths tail g K.
Proof.
  intros H. repeat (destruct H as [<-|H]); try contradiction;
  cbn; destruct (bt paths tail g K); reflexivity.
Qed.

Lemma in_set_id_char c : video_id_char c -> in_set id_char c = true.
Proof.
  unfold in_set, id_char, video_id_char; simpl.
  rewrite !orb_true_iff, !andb_true_iff, !N.leb_le, !N.eqb_eq. lia.
Qed.

Lemma id_chars_slash_free id : Forall video_id_char id -> slash_free id.
Proof.
  unfold slash_free. induction 1 as [|c id Hc _ IH]; simpl; [tauto|].
  intros [E|E]; [|exact (IH E)].
  unfold video_id_char in Hc. lia.
Qed.

Lemma slash_free_app a b : slash_free a -> slash_free b -> slash_free (a ++ b).
Proof. unfold slash_free. intros Ha Hb H. apply in_app_or in H. tauto. Qed.

Lemma bt_seq R r1 r2 s g (k : cont R) :
  bt (Seq r1 r2) s g k = bt r1 s g (fun s' g' => bt r2 s' g' k).
Proof. reflexivity. Qed.

Lemma bt_times_set R cs : forall w rest g (k : cont R),
  forallb (in_set cs) w = true ->
  bt (Times (List.length w) (Set_ cs)) (w ++ rest) g k = k rest g.
Proof.
  induction w as [|c w IH]; intros rest g k F; [reflexivity|].
  simpl in F. apply andb_prop in F as [Hc F].
  cbn [List.length app]. cbn [bt]. rewrite Hc. exact (IH rest g k F).
Qed.

Lemma bt_id_group R id rest g (k : cont R) :
  List.length id = 11 -> Forall video_id_char id ->
  bt id_group (id ++ rest) g k = k rest (Some id).
Proof.
  intros L F. unfold id_group. rewrite <- L.
  change (bt (Group ?r) ?s ?g ?k)
    with (bt r s g
            (fun s' _ => k s' (Some (firstn (List.length s - List.length s') s)))).
  rewrite bt_times_set.
  - rewrite length_app, Nat.add_sub, firstn_app, Nat.sub_diag, firstn_all.
    simpl. rewrite app_nil_r. reflexivity.
  - apply forallb_forall. rewrite Forall_forall in F.
    intros c Hc. apply in_set_id_char, F, Hc.
Qed.

Lemma search_at_front r s m : match_here r s = Some m -> search r s = Some m.
Proof. intros H. destruct s; simpl; rewrite H; reflexivity. Qed.

(** A greedy run followed by a slash finds nothing in a text without
    slashes. *)
Lemma greedy_star_none R cs (k : cont R) g : forall s,
  (forall s1 s2, s = s1 ++ s2 -> k s2 g = None) ->
  greedy_star cs s g k = None.
Proof.
  induction s as [|c t IH]; intros H; simpl.
  - exact (H [] [] eq_refl).
  - assert (K0 : k (c :: t) g = None) by exact (H [] (c :: t) eq_refl).
    destruct (in_set cs c); [|exact K0].
    rewrite IH; [exact K0|].
    intros s1 s2 ->. exact (H (c :: s1) s2 eq_refl).
Qed.

Lemma slash_free_suffix s s1 s2 : slash_free s -> s = s1 ++ s2 -> slash_free s2.
Proof.
  unfold slash_free. intros H -> H2. apply H, in_or_app. auto.
Qed.

Lemma chr_slash_none R r s g (k : cont R) :
  slash_free s -> bt (Seq (Chr "/") r) s g k = None.
Proof.
  intros H. destruct s as [|c t]; [reflexivity|]. cbn.
  destruct (N.eqb_spec c 47) as [->|_]; [|reflexivity].
  exfalso. apply H. left. reflexivity.
Qed.

Lemma plus_slash_none R cs r s g (k : cont R) :
  slash_free s -> bt (Seq (Plus cs) (Seq (Chr "/") r)) s g k = None.
Proof.
  intros H. rewrite bt_seq. cbn [bt].
  destruct s as [|c t]; [reflexivity|].
  destruct (in_set cs c); [|reflexivity].
  apply greedy_star_none. intros s1 s2 E.
  apply chr_slash_none.
  apply (@slash_free_suffix (c :: t) (c :: s1) s2 H). rewrite E. reflexivity.
Qed.

Lemma plus_then_slash_none R cs s g (k : cont R) :
  slash_free s -> bt (Seq (Plus cs) (Chr "/")) s g k = None.
Proof.
  intros H. rewrite bt_seq. cbn [bt].
  destruct s as [|c t]; [reflexivity|].
  destruct (in_set cs c); [|reflexivity].
  apply greedy_star_none. intros s1 s2 E.
  assert (F : slash_free s2).
  { apply (@slash_free_suffix (c :: t) (c :: s1) s2 H). rewrite E. reflexivity. }
  destruct s2 as [|d u]; [reflexivity|]. cbn.
  destruct (N.eqb_spec d 47) as [->|_]; [|reflexivity].
  exfalso. apply F. left. reflexivity.
Qed.

Lemma bt_watch R tail g (K : cont R) x :
  slash_free tail ->
  K tail g = Some x ->
  bt youtube_paths (py "watch?v=" ++ tail) g K = Some x.
Proof.
  intros Hs HK. unfold youtube_paths.
  change (bt (Alt ?a ?b) ?s ?g ?k) with (orelse (bt a s g k) (fun _ => bt b s g k)).
  rewrite plus_slash_none.
  - cbn. rewrite HK. reflexivity.
  - apply slash_free_app; [|exact Hs].
    unfold slash_free. cbn. intuition discriminate.
Qed.

Lemma bt_player R path tail g (K : cont R) x :
  In path player_paths ->
  slash_free tail ->
  K tail g = Some x ->
  bt youtube_paths (path ++ py "/" ++ tail) g K = Some x.
Proof.
  intros Hp Hs HK.
  assert (A : forall r2 : regex,
             bt (Seq (Plus not_slash_nl_space) (Seq (Chr "/") r2))
               (path ++ py "/" ++ tail) g K = bt r2 tail g K).
  { intros r2. repeat (destruct Hp as [<-|Hp]); try contradiction;
      cbn; destruct (bt r2 tail g K); reflexivity. }
  unfold youtube_paths.
  change (bt (Alt ?a ?b) ?s ?g ?k) with (orelse (bt a s g k) (fun _ => bt b s g k)).
  rewrite A, plus_then_slash_none by exact Hs.
  repeat (destruct Hp as [<-|Hp]); try contradiction;
    cbn; rewrite HK; reflexivity.
Qed.

Lemma match_here_pattern start tail id rest :
  In start url_starts ->
  List.length id = 11 -> Forall video_id_char id ->
  (forall (K : cont match_obj) x,
      K (id ++ rest) None = Some x ->
      bt youtube_paths tail None K = Some x) ->
  match_here video_id_pattern (start ++ py "youtube.com/" ++ tail)
  = Some (MatchObj (Some id)).
Proof.
  intros Hs L F H. unfold match_here, video_id_pattern.
  rewrite bt_seq, url_prefix_paths, bt_youtube by exact Hs.
  apply H. apply bt_id_group; assumption.
Qed.

(** X1.  A short link [youtu.be/ID...], with or without [http://],
    [https://] and [www.] in front, yields the 11 id characters that
    follow the host, whatever comes after them: a longer token is cut after
    its 11th character. *)
Theorem short_link_yields_its_id start id rest :
  In start url_starts ->
  List.length id = 11 -> Forall video_id_char id ->
  extract_video_id (JStr (start ++ py "youtu.be/" ++ id ++ rest))
  = Ok (Some id).
Proof.
  intros Hs L F. rewrite extract_video_id_str.
  rewrite (@search_at_front _ _ (MatchObj (Some id))); [reflexivity|].
  unfold match_here, video_id_pattern.
  rewrite bt_seq, url_prefix_paths, bt_short_link by exact Hs.
  apply bt_id_group; assumption.
Qed.

Ltac id_chars :=
  unfold short_link_id, py; simpl;
  repeat (apply Forall_cons; [unfold video_id_char; lia|]); apply Forall_nil.
Ltac no_slash :=
  let H := fresh in
  unfold slash_free; simpl; intros H;
  repeat destruct H as [H|H]; try discriminate H; exact H.

Lemma short_link_yields_its_id_witness :
  extract_video_id
    (JStr (py "https://" ++ py "youtu.be/" ++ short_link_id ++ py "AAAA?t=42"))
  = Ok (Some short_link_id).
Proof.
  apply (@short_link_yields_its_id (py "https://") short_link_id
           (py "AAAA?t=42")).
  - simpl. auto.
  - reflexivity.
  - id_chars.
Defined.

(** X2.  A watch link [youtube.com/watch?v=ID...] yields the 11 id
    characters after [v=], provided that no [/] follows them. *)
Theorem watch_url_yields_its_id start id rest :
  In start url_starts ->
  List.length id = 11 -> Forall video_id_char id ->
  slash_free rest ->
  extract_video_id
    (JStr (start ++ py "youtube.com/" ++ py "watch?v=" ++ id ++ rest))
  = Ok (Some id).
Proof.
  intros Hs L F Hr. rewrite extract_video_id_str.
  rewrite (@search_at_front _ _ (MatchObj (Some id))); [reflexivity|].
  apply match_here_pattern with (rest := rest); try assumption.
  intros K x HK. apply bt_watch; [|exact HK].
  apply slash_free_app; [apply id_chars_slash_free|]; assumption.
Qed.

Lemma watch_url_yields_its_id_witness :
  extract_video_id
    (JStr (py "https://www." ++ py "youtube.com/" ++ py "watch?v="
             ++ short_link_id ++ py "&t=42"))
  = Ok (Some short_link_id).
Proof.
  apply (@watch_url_yields_its_id (py "https://www.") short_link_id
           (py "&t=42")).
  - simpl. auto 10.
  - reflexivity.
  - id_chars.
  - no_slash.
Defined.

(** X3.  A player link [youtube.com/v/ID...], [youtube.com/e/ID...] or
    [youtube.com/embed/ID...] yields the 11 id characters after the path
    segment, provided that no [/] follows them. *)
Theorem player_url_yields_its_id start path id rest :
  In start url_starts ->
  In path player_paths ->
  List.length id = 11 -> Forall video_id_char id ->
  slash_free rest ->
  extract_video_id
    (JStr (start ++ py "youtube.com/" ++ path ++ py "/" ++ id ++ rest))
  = Ok (Some id).
Proof.
  intros Hs Hp L F Hr. rewrite extract_video_id_str.
  rewrite (@search_at_front _ _ (MatchObj (Some id))); [reflexivity|].
  apply match_here_pattern with (rest := rest); try assumption.
  intros K x HK. apply bt_player; [exact Hp| |exact HK].
  apply slash_free_app; [apply id_chars_slash_free|]; assumption.
Qed.

Lemma player_url_yields_its_id_witness :
  extract_video_id
    (JStr (py "www." ++ py "youtube.com/" ++ py "embed" ++ py "/"
             ++ short_link_id ++ py "?rel=0"))
  = Ok (Some short_link_id).
Proof.
  apply (@player_url_yields_its_id (py "www.") (py "embed") short_link_id
           (py "?rel=0")).
  - simpl. auto 10.
  - simpl. auto.
  - reflexivity.
  - id_chars.
  - no_slash.
Defined.

(* ================================================================== *)
(** ** The parser on a link with a second address in it *)

(** C1, at an embed link with an [origin] parameter.  The string is a link
    of the form [youtube.com/embed/ID] to the video [dQw4w9WgXcQ], and the
    pattern has an alternative for that form, which alone yields the id.
    Yet the parser returns [mydomainnam]: the first path alternative,
    [[^\/\n\s]+\/\S+\/], is tried before it, runs over the query up to the
    last [/] of the string and captures the 11 characters after it. *)
Theorem embed_link_with_origin_yields_another_token :
  links_to embed_with_origin short_link_id /\
  extract_video_id (JStr embed_with_origin) = Ok (Some (py "mydomainnam")) /\
  py "mydomainnam" <> short_link_id /\
  option_map group1 (search pattern_without_first_path embed_with_origin)
  = Some (Some short_link_id).
Proof.
  split; [|split; [vm_compute; reflexivity|split; [discriminate|]]].
  - exists (py "https://www."), (py "youtube.com/embed/"),
      (py "?enablejsapi=1&origin=https://mydomainname.com").
    split; [simpl; auto 10|]. split; [simpl; auto 10|].
    split; [reflexivity|]. split; [reflexivity|]. split; [id_chars|].
    unfold video_id_char. simpl. lia.
  - vm_compute. reflexivity.
Qed.

(* ================================================================== *)
(** ** What every match of the pattern looks like *)

Lemma lit_matches s : forall w g g',
  Matches (lit s) w g g' -> w = py s.
Proof.
  induction s as [|a s IH]; intros w g g' H; simpl in H; inversion H; subst.
  - reflexivity.
  - match goal with
    | H1 : Matches (Chr _) _ _ _, H2 : Matches (lit _) _ _ _ |- _ =>
        inversion H1; subst; apply IH in H2; subst
    end.
    match goal with
    | H1 : in_set _ _ = true |- _ =>
        unfold in_set in H1; simpl in H1;
        rewrite orb_false_r in H1; apply N.eqb_eq in H1; subst
    end.
    reflexivity.
Qed.

Lemma contains_app_l a b sub : contains b sub -> contains (a ++ b) sub.
Proof.
  intros (x & y & ->). exists (a ++ x), y. rewrite app_assoc. reflexivity.
Qed.

Lemma contains_app_r a b sub : contains a sub -> contains (a ++ b) sub.
Proof.
  intros (x & y & ->). exists x, (y ++ b). rewrite <- !app_assoc. reflexivity.
Qed.

Lemma contains_self a : contains a a.
Proof. exists [], []. rewrite app_nil_r. reflexivity. Qed.

Lemma url_prefix_matches p g g' :
  Matches url_prefix p g g' ->
  (contains p (py "youtube.com/") \/ contains p (py "youtu.be/")) /\
  9 <= List.length p.
Proof.
  unfold url_prefix. intros H.
  inversion H as [| |r1 r2 s1 s2 ? ? ? _ H2| | | | | | | | |]; subst.
  inversion H2 as [| |r1 r2 s3 s4 ? ? ? _ H4| | | | | | | | |]; subst.
  inversion H4 as [| | |? ? ? ? ? HL|? ? ? ? ? HR| | | | | | |]; subst.
  - inversion HL as [| |r1 r2 s5 s6 ? ? ? H5 _| | | | | | | | |]; subst.
    apply (@lit_matches "youtube.com/") in H5. subst s5. split.
    + left. do 2 apply contains_app_l. apply contains_app_r, contains_self.
    + rewrite !length_app. cbn. lia.
  - apply (@lit_matches "youtu.be/") in HR. subst s4. split.
    + right. do 2 apply contains_app_l. apply contains_self.
    + rewrite !length_app. cbn. lia.
Qed.

Lemma pattern_match_shape w g g' :
  Matches video_id_pattern w g g' ->
  exists p id,
    w = p ++ id /\ g' = Some id /\ List.length id = 11 /\
    (contains p (py "youtube.com/") \/ contains p (py "youtu.be/")) /\
    9 <= List.length p.
Proof.
  unfold video_id_pattern. intros H. inversion H; subst.
  match goal with
  | H1 : Matches id_group _ _ _, H2 : Matches url_prefix _ _ _ |- _ =>
      apply id_group_matches in H1 as (-> & L & F);
      apply url_prefix_matches in H2 as (C & Lp)
  end.
  eauto 10.
Qed.

(** X4.  An id that the parser returns stands in the string, and the text
    before it contains [youtube.com/] or [youtu.be/]. *)
Theorem id_comes_from_a_youtube_link url id :
  extract_video_id (JStr url) = Ok (Some id) ->
  exists pre post,
    url = pre ++ id ++ post /\
    (contains pre (py "youtube.com/") \/ contains pre (py "youtu.be/")).
Proof.
  intros E.
  destruct (extract_video_id_cases url)
    as [[E' _]|(id' & start & E' & _ & _ & At & _)];
    rewrite E in E'; [discriminate|]. injection E' as <-.
  destruct At as (pre & w & post & -> & _ & Hm).
  apply pattern_match_shape in Hm as (p & id' & -> & [= <-] & _ & C & _).
  exists (pre ++ p), post. split.
  - rewrite <- !app_assoc. reflexivity.
  - destruct C; [left | right]; apply contains_app_l; assumption.
Qed.

Lemma id_comes_from_a_youtube_link_witness :
  exists pre post,
    short_link = pre ++ short_link_id ++ post /\
    (contains pre (py "youtube.com/") \/ contains pre (py "youtu.be/")).
Proof.
  apply (@id_comes_from_a_youtube_link short_link short_link_id).
  vm_compute. reflexivity.
Defined.

Lemma matches_need_twenty url :
  matches_somewhere video_id_pattern url -> 20 <= List.length url.
Proof.
  intros (start & id & pre & w & post & -> & _ & Hm).
  apply pattern_match_shape in Hm as (p & id' & -> & _ & L & _ & Lp).
  rewrite !length_app. lia.
Qed.

(** X5.  A string of fewer than 20 characters, the empty string included,
    yields [None]. *)
Theorem short_strings_have_no_id url :
  List.length url < 20 -> extract_video_id (JStr url) = Ok None.
Proof.
  intros L. apply extract_video_id_non_matching. intros H.
  apply matches_need_twenty in H. lia.
Qed.

Lemma short_strings_have_no_id_witness :
  extract_video_id (JStr (py "youtu.be/dQw4w9WgXc")) = Ok None.
Proof.
  apply (@short_strings_have_no_id (py "youtu.be/dQw4w9WgXc")).
  simpl. lia.
Defined.

Lemma no_match_without_host url :
  ~ contains url (py "youtube.com/") -> ~ contains url (py "youtu.be/") ->
  ~ matches_somewhere video_id_pattern url.
Proof.
  intros N1 N2 (start & id & pre & w & post & -> & _ & Hm).
  apply pattern_match_shape in Hm as (p & id' & -> & _ & _ & C & _).
  destruct C as [C|C]; [apply N1 | apply N2];
    apply contains_app_l, contains_app_r, contains_app_r; exact C.
Qed.

(** X6.  A string that contains neither [youtube.com/] nor [youtu.be/]
    yields [None]. *)
Theorem other_hosts_have_no_id url :
  ~ contains url (py "youtube.com/") -> ~ contains url (py "youtu.be/") ->
  extract_video_id (JStr url) = Ok None.
Proof.
  intros N1 N2.
  apply extract_video_id_non_matching, no_match_without_host; assumption.
Qed.

Lemma other_hosts_have_no_id_witness :
  extract_video_id (JStr (py "https://vimeo.com/watch?v=dQw4w9WgXcQ"))
  = Ok None.
Proof.
  apply (@other_hosts_have_no_id (py "https://vimeo.com/watch?v=dQw4w9WgXcQ"));
    apply not_contains; reflexivity.
Defined.

Lemma matches_somewhere_extends r url a b :
  matches_somewhere r url -> matches_somewhere r (a ++ url ++ b).
Proof.
  intros (start & id & pre & w & post & -> & _ & Hm).
  exists (List.length (a ++ pre)), id, (a ++ pre), w, (post ++ b).
  repeat split; [|exact Hm]. rewrite <- !app_assoc. reflexivity.
Qed.

(** X7.  A link that the parser accepts is still found when text is put
    before and after it: the result is again an id of 11 id characters
    (of the leftmost match, which the added text may have moved). *)
Theorem link_inside_a_text_is_found url id before after :
  extract_video_id (JStr url) = Ok (Some id) ->
  exists id',
    extract_video_id (JStr (before ++ url ++ after)) = Ok (Some id') /\
    List.length id' = 11 /\ Forall video_id_char id'.
Proof.
  intros E. apply extract_video_id_matching, matches_somewhere_extends.
  destruct (extract_video_id_cases url)
    as [[E' _]|(id' & start & _ & _ & _ & At & _)].
  - rewrite E in E'. discriminate.
  - exists start, (Some id'). exact At.
Qed.

Lemma link_inside_a_text_is_found_witness :
  exists id',
    extract_video_id (JStr (py "see " ++ short_link ++ py " tonight"))
    = Ok (Some id') /\
    List.length id' = 11 /\ Forall video_id_char id'.
Proof.
  apply (@link_inside_a_text_is_found short_link short_link_id (py "see ")
           (py " tonight")).
  vm_compute. reflexivity.
Defined.

(* ================================================================== *)
(** ** The handler on malformed requests *)

(** X8.  A request whose ["videoUrl"] is not a string ([null], a number, a
    list, an object) makes [re.search] raise [TypeError]; it is answered
    with status 500 and the text of that exception, and no service is
    invoked. *)
Theorem non_string_url_is_a_server_error w req v :
  posts_value req v -> ~ is_string v ->
  exists e,
    extract_video_id v = Raise e /\ exn_class e = "TypeError"%string /\
    answers w req (Response (error_body (exn_str e)) 500) [CallExtract v].
Proof.
  intros (d & Hj & Hd) Hv. unfold answers. unfold_handler.
  rewrite Hj. unfold get. rewrite Hd.
  destruct v; try (eexists; repeat split; reflexivity).
  exfalso. apply Hv. eexists. reflexivity.
Qed.

Lemma non_string_url_is_a_server_error_witness :
  exists e,
    extract_video_id (JInt 5) = Raise e /\ exn_class e = "TypeError"%string /\
    answers quiet (post [(py "videoUrl", JInt 5)])
      (Response (error_body (exn_str e)) 500) [CallExtract (JInt 5)].
Proof.
  apply (@non_string_url_is_a_server_error quiet
           (post [(py "videoUrl", JInt 5)]) (JInt 5)).
  - exists [(py "videoUrl", JInt 5)]. split; reflexivity.
  - intros (s & H). discriminate H.
Defined.

(** X9.  When [request.json] raises (wrong content type, malformed JSON)
    the request is answered with status 500 and the text of the exception;
    neither the parser nor a service is called. *)
Theorem unreadable_body_is_a_server_error w req e :
  request_json req = Raise e ->
  answers w req (Response (error_body (exn_str e)) 500) [].
Proof.
  intros H. unfold answers. unfold_handler. rewrite H. reflexivity.
Qed.

Lemma unreadable_body_is_a_server_error_witness :
  answers quiet (Request (Raise unsupported_media_type))
    (Response (error_body (py "415 Unsupported Media Type")) 500) [].
Proof.
  apply (@unreadable_body_is_a_server_error quiet
           (Request (Raise unsupported_media_type)) unsupported_media_type).
  reflexivity.
Defined.

(** X10.  A JSON body that is not an object has no [get]: the request is
    answered with status 500 and the text of the [AttributeError]; neither
    the parser nor a service is called. *)
Theorem non_object_body_is_a_server_error w req j :
  request_json req = Ok j -> ~ is_object j ->
  exists e,
    get j (py "videoUrl") = Raise e /\
    exn_class e = "AttributeError"%string /\
    answers w req (Response (error_body (exn_str e)) 500) [].
Proof.
  intros Hj Ho. unfold answers. unfold_handler. rewrite Hj.
  destruct j; try (eexists; repeat split; reflexivity).
  exfalso. apply Ho. eexists. reflexivity.
Qed.

Lemma non_object_body_is_a_server_error_witness :
  exists e,
    get (JArr []) (py "videoUrl") = Raise e /\
    exn_class e = "AttributeError"%string /\
    answers quiet (Request (Ok (JArr [])))
      (Response (error_body (exn_str e)) 500) [].
Proof.
  apply (@non_object_body_is_a_server_error quiet (Request (Ok (JArr [])))
           (JArr [])).
  - reflexivity.
  - intros (d & H). discriminate H.
Defined.

Lemma extract_video_id_returns v r :
  extract_video_id v = Ok r -> exists url, v = JStr url.
Proof. destruct v; try discriminate. eauto. Qed.

Lemma get_returns j key v :
  get j key = Ok v ->
  exists d, j = JObj d /\
            (dict_get key d = Some v \/ (dict_get key d = None /\ v = JNull)).
Proof.
  destruct j; try discriminate. simpl.
  destruct (dict_get key d) eqn:E; intros [= <-]; eauto.
Qed.

Lemma success_shape transcript summary :
  success_response (Response (success_body transcript summary) 200).
Proof. exists transcript, summary. reflexivity. Qed.

(** Every answer with its log, path by path. *)
Lemma run_paths w req resp log :
  answers w req resp log ->
  (status_code resp = 500%Z /\ error_response resp) \/
  (status_code resp = 400%Z /\ error_response resp /\
   steps log = [Parse] /\
   field "error" resp = Some (JStr (py "Invalid YouTube URL")) /\
   exists url, posts_url req url /\ extract_video_id (JStr url) = Ok None) \/
  (status_code resp = 200%Z /\ success_response resp /\
   steps log = [Parse; Fetch; Summarize]).
Proof.
  unfold answers. unfold_handler.
  destruct (request_json req) as [j|e] eqn:Hj;
    [|intros [= <- <-]; left; split; [reflexivity|]; do 2 eexists; eauto].
  destruct (get j (py "videoUrl")) as [u|e] eqn:Hg;
    [|intros [= <- <-]; left; split; [reflexivity|]; do 2 eexists; eauto].
  destruct (extract_video_id u) as [video_id|e] eqn:Hid;
    [|intros [= <- <-]; left; split; [reflexivity|]; do 2 eexists; eauto].
  destruct (truthy video_id) eqn:Htr; cbn [negb].
  - unfold get_transcript, generate_summary, try_except, bind, lift, emit, ret.
    cbv beta iota zeta.
    destruct (transcript_api w video_id) as [entries|e];
      [|destruct (truthy (Some (exn_str e)))]; cbn [truthy];
      try (destruct (generative_model w _) as [summary|e'];
           [|destruct (truthy (Some (exn_str e')))]);
      intros [= <- <-];
      first [ left; split; [reflexivity|]; do 2 eexists; now eauto
            | right; right; split; [reflexivity|];
              split; [|reflexivity];
              first [ apply (success_shape (Some _) (Some _))
                    | apply (success_shape None (Some _))
                    | apply (success_shape (Some _) None)
                    | apply (success_shape None None) ] ].
  - intros [= <- <-]. right; left.
    split; [reflexivity|]. split; [do 2 eexists; eauto|].
    split; [reflexivity|]. split; [reflexivity|].
    pose proof Hid as Hs. apply extract_video_id_returns in Hs as (url & ->).
    apply get_returns in Hg as (d & -> & [Hd|[_ [=]]]).
    exists url. split; [exists d; auto|].
    destruct video_id as [[|c id]|]; try discriminate; [|exact Hid].
    apply extract_video_id_truthy in Hid. discriminate.
Qed.

(** X11.  The handler answers with status 400 exactly when the body is an
    object whose ["videoUrl"] is a string from which the parser gets
    [None]. *)
Theorem bad_request_exactly_for_unparseable_urls w req resp log :
  answers w req resp log ->
  (status_code resp = 400%Z <->
   exists url, posts_url req url /\ extract_video_id (JStr url) = Ok None).
Proof.
  intros H. split.
  - intros C. destruct (run_paths H) as [[C' _]|[(_ & _ & _ & _ & U)|[C' _]]];
      [congruence | exact U | congruence].
  - intros (url & Hreq & Hid). unfold answers in H.
    rewrite (run_invalid_url w Hreq Hid) in H. injection H as <- _.
    reflexivity.
Qed.

Lemma bad_request_exactly_for_unparseable_urls_witness :
  400%Z = 400%Z <->
  exists url,
    posts_url (post_url (py "not a url")) url /\
    extract_video_id (JStr url) = Ok None.
Proof.
  apply (@bad_request_exactly_for_unparseable_urls quiet
           (post_url (py "not a url"))
           (Response (error_body (py "Invalid YouTube URL")) 400)
           [CallExtract (JStr (py "not a url"))]).
  vm_compute. reflexivity.
Defined.

(** X12.  Every response is of one of two shapes: an object with exactly
    the fields ["error"] and ["status": "error"], with status 400 or 500;
    or an object with exactly the fields ["transcript"], ["summary"] and
    ["status": "success"], with status 200, and then the parser, the
    transcript service and the model were each called once, in this
    order. *)
Theorem response_shapes w req resp log :
  answers w req resp log ->
  (error_response resp /\ status_code resp <> 200%Z) \/
  (success_response resp /\ steps log = [Parse; Fetch; Summarize]).
Proof.
  intros H.
  destruct (run_paths H) as [[C E]|[(C & E & _)|(C & S & L)]];
    [left | left | right]; split; auto; congruence.
Qed.

Lemma response_shapes_witness :
  (error_response (Response (error_body (py "Invalid YouTube URL")) 400) /\
   400%Z <> 200%Z) \/
  (success_response (Response (error_body (py "Invalid YouTube URL")) 400) /\
   steps [CallExtract (JStr (py "not a url"))] = [Parse; Fetch; Summarize]).
Proof.
  apply (@response_shapes quiet (post_url (py "not a url"))
           (Response (error_body (py "Invalid YouTube URL")) 400)
           [CallExtract (JStr (py "not a url"))]).
  vm_compute. reflexivity.
Defined.

(* ================================================================== *)
(** ** The two service wrappers *)

(** X13.  [get_transcript] never raises and calls the transcript service
    exactly once.  It returns a transcript and no error when the service
    returned, and no transcript and the text of the exception when the
    service raised: never both, never neither. *)
Theorem get_transcript_never_raises w video_id log :
  exists transcript err,
    get_transcript w video_id log =
    (Ok (transcript, err), log ++ [CallTranscriptApi video_id]) /\
    ((exists entries t,
        transcript_api w video_id = Ok entries /\
        transcript = Some t /\ err = None) \/
     (exists e,
        transcript_api w video_id = Raise e /\
        transcript = None /\ err = Some (exn_str e))).
Proof.
  destruct (transcript_api w video_id) as [entries|e] eqn:H.
  - rewrite (get_transcript_returns _ _ _ H). eauto 10.
  - rewrite (get_transcript_raises _ _ _ H). eauto 10.
Qed.

(** X14.  [generate_summary] never raises and calls the model exactly
    once, with the instruction followed by the transcript ([None] is
    formatted as the text ["None"]).  It returns a summary and no error when
    the model returned, and no summary and the text of the exception when
    the model raised. *)
Theorem generate_summary_never_raises w transcript log :
  exists summary err,
    generate_summary w transcript log =
    (Ok (summary, err),
     log ++ [CallGenerate (instruction ++ format transcript)]) /\
    ((exists s,
        generative_model w (instruction ++ format transcript) = Ok s /\
        summary = Some s /\ err = None) \/
     (exists e,
        generative_model w (instruction ++ format transcript) = Raise e /\
        summary = None /\ err = Some (exn_str e))).
Proof.
  assert (P : instruction ++ format transcript = prompt_of transcript).
  { unfold instruction, prompt_of. cbn [format].
    rewrite app_nil_r, <- !app_assoc. reflexivity. }
  rewrite P.
  destruct (generative_model w (prompt_of transcript)) as [s|e] eqn:H.
  - erewrite generate_summary_returns by exact H. eauto 10.
  - erewrite generate_summary_raises by exact H. eauto 10.
Qed.

Lemma join_contains sep : forall texts t,
  In t texts -> contains (join sep texts) t.
Proof.
  induction texts as [|a [|b rest] IH]; intros t Ht.
  - destruct Ht.
  - destruct Ht as [<-|[]]. apply contains_self.
  - destruct Ht as [<-|Ht].
    + apply contains_app_r, contains_self.
    + change (join sep (a :: b :: rest))
        with (a ++ sep ++ join sep (b :: rest)).
      apply contains_app_l, contains_app_l, IH, Ht.
Qed.

(** X15.  Every caption text that the transcript service returns stands in
    the transcript. *)
Theorem every_caption_is_in_the_transcript w video_id entries e log :
  transcript_api w video_id = Ok entries ->
  In e entries ->
  exists t log',
    get_transcript w video_id log = (Ok (Some t, None), log') /\
    contains t (text e).
Proof.
  intros H He. rewrite (get_transcript_returns _ _ _ H).
  do 2 eexists; split; [reflexivity|].
  apply join_contains, in_map, He.
Qed.

Lemma every_caption_is_in_the_transcript_witness :
  exists t log',
    get_transcript (answering [Entry (py "never"); Entry (py "gonna")] [])
      (Some short_link_id) [] = (Ok (Some t, None), log') /\
    contains t (py "gonna").
Proof.
  apply (@every_caption_is_in_the_transcript
           (answering [Entry (py "never"); Entry (py "gonna")] [])
           (Some short_link_id) [Entry (py "never"); Entry (py "gonna")]
           (Entry (py "gonna")) []).
  - reflexivity.
  - simpl. auto.
Defined.

Lemma join_empty (sep : str) texts :
  sep <> [] -> (join sep texts = [] <-> texts = [] \/ texts = [[]]).
Proof.
  intros Hsep. split.
  - destruct texts as [|a [|b rest]]; simpl; auto.
    + intros ->. auto.
    + intros H. apply app_eq_nil in H as [_ H].
      apply app_eq_nil in H as [H _]. contradiction.
  - intros [->| ->]; reflexivity.
Qed.

(** X16.  The transcript is the empty string exactly when the service
    returned no caption entry at all or a single entry with an empty
    text. *)
Theorem transcript_is_empty_exactly_when w video_id entries log :
  transcript_api w video_id = Ok entries ->
  (fst (get_transcript w video_id log) = Ok (Some [], None) <->
   entries = [] \/ entries = [Entry []]).
Proof.
  intros H. rewrite (get_transcript_returns _ _ _ H). cbn [fst]. split.
  - intros [= E]. apply join_empty in E; [|discriminate].
    destruct E as [E|E].
    + left. destruct entries; [reflexivity | discriminate E].
    + right. destruct entries as [|[t] [|? ?]]; try discriminate E.
      injection E as ->. reflexivity.
  - intros [->| ->]; reflexivity.
Qed.

Lemma transcript_is_empty_exactly_when_witness :
  fst (get_transcript (answering [Entry []] []) (Some short_link_id) [])
  = Ok (Some [], None) <->
  [Entry []] = [] \/ [Entry []] = [Entry []].
Proof.
  apply (@transcript_is_empty_exactly_when (answering [Entry []] [])
           (Some short_link_id) [Entry []] []).
  reflexivity.
Defined.

(* ================================================================== *)
(** ** The handler: what reaches the services *)

Lemma run_after_parse w req url id :
  posts_url req url ->
  extract_video_id (JStr url) = Ok (Some id) ->
  run w req =
  try_except
    ('(transcript, transcript_error) <- get_transcript w (Some id) ;;
     if truthy transcript_error then
       ret (Response
              (error_body (py "Error retrieving transcript: "
                             ++ format transcript_error)) 500)
     else
       '(summary, summary_error) <- generate_summary w transcript ;;
       if truthy summary_error then
         ret (Response
                (error_body (py "Error generating summary: "
                               ++ format summary_error)) 500)
       else
         ret (Response
                (jsonify [(py "transcript", to_json transcript);
                          (py "summary", to_json summary);
                          (py "status", JStr (py "success"))]) 200))
    (fun e => ret (Response (error_body (exn_str e)) 500))
    [CallExtract (JStr url)].
Proof.
  intros Hreq Hid. enter_handler Hreq.
  rewrite Hid, (extract_video_id_truthy Hid). reflexivity.
Qed.

(** X17.  Whenever the parser gets an id from the posted URL, the
    transcript service is called exactly once, with exactly that id, right
    after the parser; at most one call of the model follows. *)
Theorem fetcher_gets_the_parsed_id w req url id :
  posts_url req url ->
  extract_video_id (JStr url) = Ok (Some id) ->
  exists resp rest,
    answers w req resp
      (CallExtract (JStr url) :: CallTranscriptApi (Some id) :: rest) /\
    (rest = [] \/ exists prompt, rest = [CallGenerate prompt]).
Proof.
  intros Hreq Hid. unfold answers. rewrite (run_after_parse w Hreq Hid).
  unfold try_except, bind, ret.
  destruct (transcript_api w (Some id)) as [entries|e] eqn:Ht.
  - rewrite (get_transcript_returns _ _ _ Ht). cbn [truthy].
    unfold generate_summary, try_except, bind, lift, emit, ret. cbv zeta.
    destruct (generative_model w _) as [s|e];
      [|destruct (truthy (Some (exn_str e)))];
      do 2 eexists; (split; [reflexivity | right; eexists; reflexivity]).
  - rewrite (get_transcript_raises _ _ _ Ht).
    destruct (truthy (Some (exn_str e))).
    + do 2 eexists; split; [reflexivity | left; reflexivity].
    + unfold generate_summary, try_except, bind, lift, emit, ret. cbv zeta.
      destruct (generative_model w _) as [s|e'];
        [|destruct (truthy (Some (exn_str e')))];
        do 2 eexists; (split; [reflexivity | right; eexists; reflexivity]).
Qed.

Lemma fetcher_gets_the_parsed_id_witness :
  exists resp rest,
    answers quiet (post_url short_link) resp
      (CallExtract (JStr short_link) :: CallTranscriptApi (Some short_link_id)
         :: rest) /\
    (rest = [] \/ exists prompt, rest = [CallGenerate prompt]).
Proof.
  apply (@fetcher_gets_the_parsed_id quiet (post_url short_link) short_link
           short_link_id).
  - exists [(py "videoUrl", JStr short_link)]. split; reflexivity.
  - vm_compute. reflexivity.
Defined.

(** X18.  Whenever the transcript service returns, the model is called
    exactly once, and its prompt is the instruction followed by the whole
    transcript: nothing is cut off or split, however long the transcript
    is. *)
Theorem model_gets_the_whole_transcript w req url id entries :
  posts_url req url ->
  extract_video_id (JStr url) = Ok (Some id) ->
  transcript_api w (Some id) = Ok entries ->
  exists resp,
    answers w req resp
      [CallExtract (JStr url); CallTranscriptApi (Some id);
       CallGenerate (instruction ++ joined_by_spaces (map text entries))].
Proof.
  intros Hreq Hid Ht. unfold answers. rewrite (run_after_parse w Hreq Hid).
  unfold try_except, bind, ret.
  rewrite (get_transcript_returns _ _ _ Ht). cbn [truthy].
  rewrite <- join_joined_by_spaces.
  assert (P : instruction ++ join (py " ") (map text entries)
              = prompt_of (Some (join (py " ") (map text entries)))).
  { unfold instruction, prompt_of. cbn [format].
    rewrite app_nil_r, <- !app_assoc. reflexivity. }
  rewrite P.
  unfold generate_summary, try_except, bind, lift, emit, ret. cbv zeta.
  destruct (generative_model w _) as [s|e];
    [|destruct (truthy (Some (exn_str e)))];
    eexists; reflexivity.
Qed.

Lemma model_gets_the_whole_transcript_witness :
  exists resp,
    answers (answering [Entry (py "never"); Entry (py "gonna")] (py "ok"))
      (post_url short_link) resp
      [CallExtract (JStr short_link); CallTranscriptApi (Some short_link_id);
       CallGenerate (instruction ++ py "never gonna")].
Proof.
  apply (@model_gets_the_whole_transcript
           (answering [Entry (py "never"); Entry (py "gonna")] (py "ok"))
           (post_url short_link) short_link short_link_id
           [Entry (py "never"); Entry (py "gonna")]).
  - exists [(py "videoUrl", JStr short_link)]. split; reflexivity.
  - vm_compute. reflexivity.
  - reflexivity.
Defined.

(** X19.  A posted URL of fewer than 20 characters, or one that contains
    neither [youtube.com/] nor [youtu.be/], is answered with status 400 and
    the message ["Invalid YouTube URL"], whatever the services would do:
    none of them is called. *)
Theorem foreign_or_short_url_is_rejected w req url :
  posts_url req url ->
  List.length url < 20 \/
  (~ contains url (py "youtube.com/") /\ ~ contains url (py "youtu.be/")) ->
  answers w req (Response (error_body (py "Invalid YouTube URL")) 400)
    [CallExtract (JStr url)].
Proof.
  intros Hreq H. apply run_invalid_url; [exact Hreq|].
  apply extract_video_id_non_matching.
  destruct H as [L|[N1 N2]].
  - intros M. apply matches_need_twenty in M. lia.
  - apply no_match_without_host; assumption.
Qed.

Lemma foreign_or_short_url_is_rejected_witness :
  answers quiet (post_url []) (Response (error_body (py "Invalid YouTube URL")) 400)
    [CallExtract (JStr [])].
Proof.
  apply (@foreign_or_short_url_is_rejected quiet (post_url []) []).
  - exists [(py "videoUrl", JStr [])]. split; reflexivity.
  - left. simpl. lia.
Defined.

(* ================================================================== *)
(** ** The script of the page, part by part *)

Section PageFacts.
Variable number : Type.
Variable number_is_falsy : number -> bool.

Implicit Types (net : Page.network number) (doc : Page.document number).
Implicit Types (data : Page.value number) (b : Page.browser number).
Implicit Types (answer : Page.fetched number).

Ltac unfold_script :=
  unfold Page.try_catch_finally, Page.awaited, Page.js_bind, Page.perform,
    Page.classList_add_hidden, Page.classList_remove_hidden,
    Page.set_textContent, Page.update, Page.read, Page.throw, Page.js_ret,
    Page.input_value.

Lemma is_success_literal (v : Page.value number) :
  Page.is_string_literal v (py "success") = true ->
  v = Page.String_ number (py "success").
Proof.
  destruct v as [| | | |s| |]; try discriminate. unfold Page.is_string_literal.
  revert s. generalize (py "success"). intros l s. revert l.
  induction s as [|x s IH]; intros [|y l]; simpl; try discriminate.
  - reflexivity.
  - rewrite andb_true_iff, N.eqb_eq. intros [-> H].
    apply IH in H. injection H as ->. reflexivity.
Qed.

Lemma not_succeeded answer :
  ~ succeeded answer ->
  match answer with
  | Page.Rejected _ => True
  | Page.Resolved data =>
      match Page.property data (py "status") with
      | Some status => Page.is_string_literal status (py "success") = false
      | None => True
      end
  end.
Proof.
  intros H. destruct answer as [|data]; [exact I|].
  destruct (Page.property data (py "status")) as [status|] eqn:Hs; [|exact I].
  destruct (Page.is_string_literal status (py "success")) eqn:Hl; [|reflexivity].
  exfalso. apply H. exists data. split; [reflexivity|].
  apply is_success_literal in Hl. subst status. exact Hs.
Qed.

(** The first part of the listener, on an empty and on a non-empty
    input. *)
Lemma begin_empty doc effs :
  Page.videoUrl doc = [] ->
  Page.on_click_begin (doc, effs)
  = (Some Page.Finished,
     (doc, effs ++ [Page.Alert (py "Please enter a YouTube URL")])).
Proof.
  intros H. unfold Page.on_click_begin. unfold_script.
  cbn [fst snd]. rewrite H. reflexivity.
Qed.

Lemma begin_nonempty doc effs c u :
  Page.videoUrl doc = c :: u ->
  exists doc',
    Page.on_click_begin (doc, effs)
    = (Some (Page.Awaiting (request_of (c :: u))),
       (doc', effs ++ [the_fetch (c :: u)])) /\
    Page.videoUrl doc' = c :: u /\
    forall id, Page.getElementById doc' id = after_reset doc id.
Proof.
  intros H. unfold Page.on_click_begin. unfold_script.
  cbn [fst snd]. rewrite H. cbn [truthy negb].
  eexists. split; [reflexivity|]. split; [exact H|].
  intros []; reflexivity.
Qed.

(** The second part of the listener, on any page. *)
Lemma resume_outcome answer doc effs :
  exists doc',
    Page.on_click_resume number_is_falsy answer (doc, effs)
    = (Some tt,
       (doc', effs ++ if thrown answer then [Page.ConsoleError] else [])) /\
    Page.videoUrl doc' = Page.videoUrl doc /\
    match answer with
    | Page.Resolved data =>
        match Page.property data (py "status") with
        | Some status =>
            if Page.is_string_literal status (py "success") then
              forall id,
                Page.getElementById doc' id =
                with_results doc
                  (match Page.property data (py "transcript") with
                   | Some v => v | None => Page.Undefined number end)
                  (match Page.property data (py "summary") with
                   | Some v => v | None => Page.Undefined number end) id
            else
              forall id,
                Page.getElementById doc' id =
                with_error doc (error_text number_is_falsy answer) id
        | None =>
            forall id,
              Page.getElementById doc' id =
              with_error doc (error_text number_is_falsy answer) id
        end
    | Page.Rejected _ =>
        forall id,
          Page.getElementById doc' id =
          with_error doc (error_text number_is_falsy answer) id
    end.
Proof.
  unfold Page.on_click_resume. unfold_script.
  destruct answer as [|data].
  - cbn. eexists. split; [reflexivity|]. split; [reflexivity|].
    intros []; reflexivity.
  - destruct data as [| |bb|n|s|l|props]; cbn [Page.property thrown error_text];
      cbn;
      try (eexists; split; [try rewrite app_nil_r; reflexivity|];
           split; [reflexivity|]; intros []; reflexivity).
    destruct (Page.is_string_literal _ _); cbn;
      eexists; (split; [try rewrite app_nil_r; reflexivity|]);
      (split; [reflexivity|]); intros []; reflexivity.
Qed.

(** One event in the browser. *)
Lemma step_typing url b :
  Page.step number_is_falsy (Page.Typing number url) b
  = Page.Browser (Page.Document url (Page.getElementById (Page.page b)))
      (Page.effects b) (Page.waiting b).
Proof. reflexivity. Qed.

Lemma step_click_empty b :
  Page.videoUrl (Page.page b) = [] ->
  Page.step number_is_falsy (Page.Click number) b
  = Page.Browser (Page.page b)
      (Page.effects b ++ [Page.Alert (py "Please enter a YouTube URL")])
      (Page.waiting b).
Proof.
  intros H. unfold Page.step. rewrite (begin_empty _ _ H). reflexivity.
Qed.

Lemma step_click_nonempty b c u :
  Page.videoUrl (Page.page b) = c :: u ->
  exists doc',
    Page.step number_is_falsy (Page.Click number) b
    = Page.Browser doc' (Page.effects b ++ [the_fetch (c :: u)])
        (Page.waiting b ++ [request_of (c :: u)]) /\
    Page.videoUrl doc' = c :: u /\
    forall id, Page.getElementById doc' id = after_reset (Page.page b) id.
Proof.
  intros H.
  destruct (begin_nonempty (Page.page b) (Page.effects b) H)
    as (doc' & E & Hu & Hel).
  exists doc'. unfold Page.step. rewrite E. auto.
Qed.

Lemma step_answer b n posted answer :
  nth_error (Page.waiting b) n = Some posted ->
  exists doc',
    Page.step number_is_falsy (Page.Answer n answer) b
    = Page.Browser doc'
        (Page.effects b ++ if thrown answer then [Page.ConsoleError] else [])
        (Page.remove_nth n (Page.waiting b)) /\
    Page.on_click_resume number_is_falsy answer (Page.page b, Page.effects b)
    = (Some tt,
       (doc',
        Page.effects b ++ if thrown answer then [Page.ConsoleError] else [])).
Proof.
  intros H.
  destruct (resume_outcome answer (Page.page b) (Page.effects b))
    as (doc' & E & _).
  exists doc'. unfold Page.step. rewrite H, E. auto.
Qed.

(** An answer that is a success, on any page. *)
Lemma success_elements data doc effs doc' effs' r :
  says_success data ->
  Page.on_click_resume number_is_falsy (Page.Resolved data) (doc, effs)
  = (r, (doc', effs')) ->
  effs' = effs /\
  exists transcript summary,
    Page.property data (py "transcript") = Some transcript /\
    Page.property data (py "summary") = Some summary /\
    forall id, Page.getElementById doc' id
               = with_results doc transcript summary id.
Proof.
  intros Hs E.
  destruct (resume_outcome (Page.Resolved data) doc effs) as (d & E' & _ & H).
  rewrite E in E'. injection E' as -> -> ->.
  unfold says_success in Hs. unfold thrown. rewrite Hs in *.
  rewrite app_nil_r. split; [reflexivity|].
  change (Page.is_string_literal (Page.String_ number (py "success"))
            (py "success")) with true in H.
  destruct data; try discriminate Hs; cbn [Page.property] in *;
    eauto.
Qed.

(** An answer that is no success, on any page. *)
Lemma failure_elements answer doc effs doc' effs' r :
  ~ succeeded answer ->
  Page.on_click_resume number_is_falsy answer (doc, effs) = (r, (doc', effs')) ->
  effs' = effs ++ (if thrown answer then [Page.ConsoleError] else []) /\
  forall id, Page.getElementById doc' id
             = with_error doc (error_text number_is_falsy answer) id.
Proof.
  intros Hf E. apply not_succeeded in Hf.
  destruct (resume_outcome answer doc effs) as (d & E' & _ & H).
  rewrite E in E'. injection E' as -> -> ->.
  split; [reflexivity|].
  destruct answer as [|data]; [exact H|].
  destruct (Page.property data (py "status")) as [status|]; [|exact H].
  rewrite Hf in H. exact H.
Qed.

(** X20.  A click with an empty input only raises the alert: nothing is
    fetched and the page is left as it is. *)
Theorem empty_input_only_alerts net doc :
  Page.videoUrl doc = [] ->
  Page.click number_is_falsy net doc
  = (Some tt, (doc, [Page.Alert (py "Please enter a YouTube URL")])).
Proof.
  intros H. unfold Page.click, Page.on_click. unfold Page.js_bind at 1.
  rewrite (begin_empty _ _ H). reflexivity.
Qed.

(** X21.  A click with a non-empty input on a page where no answer is
    awaited, followed by its answer with no other click or answer in
    between: the input is posted once, as [{"videoUrl": input}], to
    [/summarize]; when the answer has been handled no answer is awaited,
    the spinner is hidden, and the page shows either the error box, with
    the two result sections hidden, or the two result sections, with the
    error box hidden, whatever it showed before the click. *)
Theorem undisturbed_click_settles b answer :
  Page.waiting b = [] ->
  Page.videoUrl (Page.page b) <> [] ->
  let b' := Page.play number_is_falsy [(Page.Click number); Page.Answer 0 answer] b in
  Page.waiting b' = [] /\
  (Page.effects b'
   = Page.effects b ++ [the_fetch (Page.videoUrl (Page.page b))] \/
   Page.effects b'
   = Page.effects b
       ++ [the_fetch (Page.videoUrl (Page.page b)); Page.ConsoleError]) /\
  (shows_error (Page.page b') \/ shows_results (Page.page b')).
Proof.
  intros Hw Hne. destruct (Page.videoUrl (Page.page b)) as [|c u] eqn:Hu;
    [contradiction|].
  cbn [Page.play fold_left].
  destruct (step_click_nonempty b Hu) as (doc1 & -> & _ & H1).
  rewrite Hw. cbn [app].
  match goal with
  | |- context [Page.step _ _ ?b1] =>
      destruct (@step_answer b1 0 (request_of (c :: u)) answer eq_refl)
        as (doc2 & -> & E2)
  end.
  cbn [Page.page Page.effects Page.waiting Page.remove_nth] in *.
  split; [reflexivity|].
  destruct (resume_outcome answer doc1 (Page.effects b ++ [the_fetch (c :: u)]))
    as (d & E & _ & H2).
  rewrite E2 in E. injection E as <-.
  assert (Err : (forall id, Page.getElementById doc2 id
                            = with_error doc1
                                (error_text number_is_falsy answer) id) ->
                shows_error doc2).
  { intros H. repeat split; rewrite H; cbn; rewrite ?H1; reflexivity. }
  assert (Res : forall t s, (forall id, Page.getElementById doc2 id
                                        = with_results doc1 t s id) ->
                            shows_results doc2).
  { intros t s H. repeat split; rewrite H; cbn; rewrite ?H1; reflexivity. }
  rewrite <- app_assoc. cbn [app].
  destruct answer as [|data]; cbn [thrown].
  - auto.
  - destruct (Page.property data (py "status")) as [status|].
    + destruct (Page.is_string_literal status (py "success")); eauto.
    + auto.
Qed.

(** X22.  When an answer that says success arrives for a waiting
    listener, whatever the page shows at that moment: the spinner is
    hidden, both result sections are made visible, the transcript and the
    summary on the page become those of the answer, and the error box is
    left as it is. *)
Theorem success_answer_shows_results b n posted data :
  nth_error (Page.waiting b) n = Some posted ->
  says_success data ->
  let b' := Page.step number_is_falsy (Page.Answer n (Page.Resolved data)) b in
  spinner_hidden (Page.page b') /\
  Page.hidden (Page.getElementById (Page.page b') Page.transcriptSection)
  = false /\
  Page.hidden (Page.getElementById (Page.page b') Page.summarySection)
  = false /\
  text_of (Page.page b') Page.transcriptContent
  = Page.property data (py "transcript") /\
  text_of (Page.page b') Page.summaryContent
  = Page.property data (py "summary") /\
  Page.getElementById (Page.page b') Page.errorContainer
  = Page.getElementById (Page.page b) Page.errorContainer /\
  Page.effects b' = Page.effects b /\
  Page.waiting b' = Page.remove_nth n (Page.waiting b).
Proof.
  intros Hn Hs.
  destruct (step_answer b n (Page.Resolved data) Hn) as (doc' & E & R).
  cbv zeta. rewrite E. cbn [Page.page Page.effects Page.waiting].
  destruct (@success_elements data _ _ _ _ _ Hs R)
    as (Heff & t & s & Ht & Hsum & H).
  unfold spinner_hidden, text_of. rewrite !H, Ht, Hsum.
  repeat split; auto.
Qed.

(** X23.  When an outcome that is no success arrives for a waiting
    listener, whatever the page shows at that moment: the spinner is
    hidden and the error box is made visible, with the answer's [error] if
    that is truthy, ["An error occurred"] if it is not, and
    ["An error occurred while processing the request."] when the request
    was rejected, the answer was not JSON or it was [null] (then the error
    also goes to the console); the result sections and their texts are
    left as they are. *)
Theorem failed_answer_shows_error b n posted answer :
  nth_error (Page.waiting b) n = Some posted ->
  ~ succeeded answer ->
  let b' := Page.step number_is_falsy (Page.Answer n answer) b in
  spinner_hidden (Page.page b') /\
  Page.getElementById (Page.page b') Page.errorContainer
  = Page.Element false (Some (error_text number_is_falsy answer)) /\
  (forall id,
     id <> Page.loadingSpinner -> id <> Page.errorContainer ->
     Page.getElementById (Page.page b') id
     = Page.getElementById (Page.page b) id) /\
  Page.effects b'
  = Page.effects b ++ (if thrown answer then [Page.ConsoleError] else []) /\
  Page.waiting b' = Page.remove_nth n (Page.waiting b).
Proof.
  intros Hn Hf.
  destruct (step_answer b n answer Hn) as (doc' & E & R).
  cbv zeta. rewrite E. cbn [Page.page Page.effects Page.waiting].
  destruct (@failure_elements answer _ _ _ _ _ Hf R) as (_ & H).
  unfold spinner_hidden. rewrite !H. repeat split.
  intros id N1 N2. rewrite H. destruct id; try reflexivity; contradiction.
Qed.

Lemma served_by_answer w url resp log :
  answers w (post_url url) resp log ->
  served_by number w (request_of url) =
  match Page.value_of number (body resp) with
  | Some data => Page.Resolved data
  | None => Page.Rejected number
  end.
Proof.
  unfold answers, served_by. intros H.
  change (Request (Ok (request_of url))) with (post_url url).
  rewrite H. reflexivity.
Qed.

(** A click and its answer with nothing in between, element by element. *)
Lemma undisturbed_click b c u answer :
  Page.waiting b = [] ->
  Page.videoUrl (Page.page b) = c :: u ->
  exists doc1 doc2,
    Page.play number_is_falsy [Page.Click number; Page.Answer 0 answer] b
    = Page.Browser doc2
        ((Page.effects b ++ [the_fetch (c :: u)])
           ++ if thrown answer then [Page.ConsoleError] else [])
        [] /\
    (forall id, Page.getElementById doc1 id = after_reset (Page.page b) id) /\
    Page.on_click_resume number_is_falsy answer
      (doc1, Page.effects b ++ [the_fetch (c :: u)])
    = (Some tt,
       (doc2,
        (Page.effects b ++ [the_fetch (c :: u)])
          ++ if thrown answer then [Page.ConsoleError] else [])).
Proof.
  intros Hw Hu. cbn [Page.play fold_left].
  destruct (step_click_nonempty b Hu) as (doc1 & -> & _ & H1).
  rewrite Hw. cbn [app].
  match goal with
  | |- context [Page.step _ _ ?b1] =>
      destruct (@step_answer b1 0 (request_of (c :: u)) answer eq_refl)
        as (doc2 & -> & E2)
  end.
  cbn [Page.page Page.effects Page.waiting Page.remove_nth] in *.
  exists doc1, doc2. auto.
Qed.

(** X24.  The page and the handler together: a click with a non-empty
    input on a page where no answer is awaited, answered by the handler
    with no other click or answer in between.  The input is posted once,
    and the page then shows what the handler answered: for a response with
    status 200 the two result sections with the response's transcript and
    summary ([null] where the response has [null]); for any other response
    the error box with the response's error message, or with
    ["An error occurred"] when that message is empty.  The script's own
    message for failed requests does not appear. *)
Theorem page_shows_the_answer_of_the_handler w b :
  Page.waiting b = [] ->
  Page.videoUrl (Page.page b) <> [] ->
  exists resp log,
    answers w (post_url (Page.videoUrl (Page.page b))) resp log /\
    let b' :=
      Page.play number_is_falsy
        [Page.Click number;
         Page.Answer 0
           (served_by number w (request_of (Page.videoUrl (Page.page b))))] b
    in
    Page.waiting b' = [] /\
    Page.effects b'
    = Page.effects b ++ [the_fetch (Page.videoUrl (Page.page b))] /\
    ((exists transcript summary,
        resp = Response (success_body transcript summary) 200 /\
        shows_results (Page.page b') /\
        text_of (Page.page b') Page.transcriptContent
        = Page.value_of number (to_json transcript) /\
        text_of (Page.page b') Page.summaryContent
        = Page.value_of number (to_json summary)) \/
     (exists message code,
        resp = Response (error_body message) code /\ code <> 200%Z /\
        shows_error (Page.page b') /\
        text_of (Page.page b') Page.errorContainer
        = Some (if truthy (Some message)
                then Page.String_ number message
                else generic_error number))).
Proof.
  intros Hw Hne. destruct (Page.videoUrl (Page.page b)) as [|c u] eqn:Hu;
    [contradiction|].
  destruct (run_total w (post_url (c :: u))) as (resp & log & Hans & _).
  exists resp, log. split; [exact Hans|]. cbv zeta.
  rewrite (served_by_answer Hans).
  assert (Shape : error_response resp /\ status_code resp <> 200%Z \/
                  success_response resp).
  { destruct (run_paths Hans) as [[C E]|[(C & E & _)|(C & S & _)]];
      [left | left | right]; try split; auto; congruence. }
  destruct Shape as [[(message & code & -> & Hcode) Hn]|(t & s & ->)].
  - match goal with
    | |- context [Page.Answer 0 ?a] =>
        destruct (@undisturbed_click b c u a Hw Hu) as (doc1 & doc2 & -> & H1 & R)
    end.
    cbn [Page.page Page.effects Page.waiting].
    apply failure_elements in R as (_ & H);
      [|intros (d & [= <-] & Hd); discriminate Hd].
    split; [reflexivity|]. split; [cbn; apply app_nil_r|].
    right. exists message, code. split; [reflexivity|]. split; [exact Hn|].
    unfold text_of. split.
    + repeat split; rewrite H; cbn; rewrite ?H1; reflexivity.
    + rewrite H. destruct message; reflexivity.
  - assert (V : Page.value_of number (body (Response (success_body t s) 200))
                = Some (Page.Object
                          [(py "transcript",
                            match t with
                            | Some x => Page.String_ number x
                            | None => Page.Null number
                            end);
                           (py "summary",
                            match s with
                            | Some x => Page.String_ number x
                            | None => Page.Null number
                            end);
                           (py "status", Page.String_ number (py "success"))])).
    { destruct t, s; reflexivity. }
    rewrite V.
    match goal with
    | |- context [Page.Answer 0 ?a] =>
        destruct (@undisturbed_click b c u a Hw Hu) as (doc1 & doc2 & -> & H1 & R)
    end.
    cbn [Page.page Page.effects Page.waiting].
    apply success_elements in R as (_ & tv & sv & Ht & Hs & H);
      [|reflexivity].
    split; [reflexivity|]. split; [cbn; apply app_nil_r|].
    left. exists t, s. split; [reflexivity|].
    unfold text_of. split.
    + repeat split; rewrite H; cbn; rewrite ?H1; reflexivity.
    + rewrite !H. cbn in Ht, Hs. injection Ht as <-. injection Hs as <-.
      destruct t, s; split; reflexivity.
Qed.

(** X25.  Two overlapping clicks can leave the error box and the results
    on the page together.  On a page where no answer is awaited the user
    clicks for one input and, before the answer is there, for another; the
    second request is answered first, with a failure, and then the first,
    with a success.  At the end no answer is awaited, the spinner is
    hidden, and the error box and both result sections are visible. *)
Theorem overlapping_clicks_show_error_and_results b first second good bad :
  Page.waiting b = [] ->
  first <> [] -> second <> [] ->
  says_success good -> ~ succeeded bad ->
  let b' :=
    Page.play number_is_falsy
      [Page.Typing number first; Page.Click number;
       Page.Typing number second; Page.Click number;
       Page.Answer 1 bad; Page.Answer 0 (Page.Resolved good)] b
  in
  Page.waiting b' = [] /\ spinner_hidden (Page.page b') /\
  shows_both (Page.page b').
Proof.
  intros Hw H1 H2 Hg Hb. destruct first as [|c1 u1]; [contradiction|].
  destruct second as [|c2 u2]; [contradiction|].
  cbn [Page.play fold_left]. rewrite !step_typing.
  destruct (@step_click_nonempty
              (Page.Browser
                 (Page.Document (c1 :: u1) (Page.getElementById (Page.page b)))
                 (Page.effects b) (Page.waiting b)) c1 u1 eq_refl)
    as (d1 & -> & _ & E1).
  cbn [Page.page Page.effects Page.waiting]. rewrite Hw. cbn [app].
  match goal with
  | |- context [Page.step _ (Page.Click number) ?b1] =>
      destruct (@step_click_nonempty b1 c2 u2 eq_refl) as (d2 & -> & _ & E2)
  end.
  cbn [Page.page Page.effects Page.waiting app].
  match goal with
  | |- context [Page.step _ (Page.Answer 1 bad) ?b1] =>
      destruct (@step_answer b1 1 (request_of (c2 :: u2)) bad eq_refl)
        as (d3 & -> & R3)
  end.
  cbn [Page.page Page.effects Page.waiting Page.remove_nth] in *.
  match goal with
  | |- context [Page.step _ (Page.Answer 0 ?a) ?b1] =>
      destruct (@step_answer b1 0 (request_of (c1 :: u1)) a eq_refl)
        as (d4 & -> & R4)
  end.
  cbn [Page.page Page.effects Page.waiting Page.remove_nth] in *.
  apply failure_elements in R3 as (_ & E3); [|exact Hb].
  apply success_elements in R4 as (_ & t & s & _ & _ & E4); [|exact Hg].
  split; [reflexivity|].
  unfold spinner_hidden, shows_both.
  repeat split; rewrite E4; cbn; rewrite ?E3; reflexivity.
Qed.

Lemma resume_hides_spinner answer doc effs r doc' effs' :
  Page.on_click_resume number_is_falsy answer (doc, effs) = (r, (doc', effs')) ->
  spinner_hidden doc'.
Proof.
  intros E.
  destruct (resume_outcome answer doc effs) as (d & E' & _ & H).
  rewrite E in E'. injection E' as -> -> ->. unfold spinner_hidden.
  destruct answer as [|data]; [rewrite H; reflexivity|].
  destruct (Page.property data (py "status")) as [status|];
    [|rewrite H; reflexivity].
  destruct (Page.is_string_literal status (py "success"));
    rewrite H; reflexivity.
Qed.

Lemma step_keeps_spinner_rule e b :
  (Page.waiting b = [] -> spinner_hidden (Page.page b)) ->
  Page.waiting (Page.step number_is_falsy e b) = [] ->
  spinner_hidden (Page.page (Page.step number_is_falsy e b)).
Proof.
  intros I. destruct e as [url| |n answer].
  - cbn. exact I.
  - destruct (Page.videoUrl (Page.page b)) as [|c u] eqn:Hu.
    + rewrite (step_click_empty b Hu). cbn. exact I.
    + destruct (step_click_nonempty b Hu) as (d & -> & _ & _). cbn.
      intros H. apply app_eq_nil in H as [_ H]. discriminate H.
  - destruct (nth_error (Page.waiting b) n) as [posted|] eqn:Hn.
    + destruct (step_answer b n answer Hn) as (d & -> & R). cbn. intros _.
      exact (resume_hides_spinner _ _ _ R).
    + unfold Page.step. rewrite Hn. exact I.
Qed.

(** X26.  However clicks, typing and answers follow each other, in any
    order and with any overlap: if the spinner is hidden whenever no answer
    is awaited before the events (as on the page when it is loaded), it is
    hidden whenever no answer is awaited after them. *)
Theorem spinner_is_hidden_when_nothing_is_awaited events : forall b,
  (Page.waiting b = [] -> spinner_hidden (Page.page b)) ->
  let b' := Page.play number_is_falsy events b in
  Page.waiting b' = [] -> spinner_hidden (Page.page b').
Proof.
  induction events as [|e events IH]; intros b I; cbn [Page.play fold_left].
  - exact I.
  - apply IH. apply step_keeps_spinner_rule. exact I.
Qed.
End PageFacts.

Lemma empty_input_only_alerts_witness :
  Page.click (Z.eqb 0) (fun _ => Page.Rejected Z) (Page.loaded_page Z [])
  = (Some tt,
     (Page.loaded_page Z [], [Page.Alert (py "Please enter a YouTube URL")])).
Proof.
  apply (@empty_input_only_alerts Z (Z.eqb 0) (fun _ => Page.Rejected Z)
           (Page.loaded_page Z [])).
  reflexivity.
Defined.

Lemma undisturbed_click_settles_witness :
  let b' :=
    Page.play (Z.eqb 0) [Page.Click Z; Page.Answer 0 (Page.Rejected Z)]
      (fresh short_link) in
  Page.waiting b' = [] /\
  (Page.effects b' = [] ++ [the_fetch short_link] \/
   Page.effects b' = [] ++ [the_fetch short_link; Page.ConsoleError]) /\
  (shows_error (Page.page b') \/ shows_results (Page.page b')).
Proof.
  apply (@undisturbed_click_settles Z (Z.eqb 0) (fresh short_link)
           (Page.Rejected Z)).
  - reflexivity.
  - discriminate.
Defined.

Lemma success_answer_shows_results_witness :
  let b' :=
    Page.step (Z.eqb 0) (Page.Answer 0 (Page.Resolved success_answer))
      (asked short_link) in
  spinner_hidden (Page.page b') /\
  Page.hidden (Page.getElementById (Page.page b') Page.transcriptSection)
  = false /\
  Page.hidden (Page.getElementById (Page.page b') Page.summarySection)
  = false /\
  text_of (Page.page b') Page.transcriptContent
  = Some (Page.String_ Z (py "never gonna")) /\
  text_of (Page.page b') Page.summaryContent
  = Some (Page.String_ Z (py "ok")) /\
  Page.getElementById (Page.page b') Page.errorContainer
  = Page.Element true None /\
  Page.effects b' = [] /\
  Page.waiting b' = [].
Proof.
  apply (@success_answer_shows_results Z (Z.eqb 0) (asked short_link) 0
           (request_of short_link) success_answer).
  - reflexivity.
  - reflexivity.
Defined.

Lemma failed_answer_shows_error_witness :
  let b' :=
    Page.step (Z.eqb 0) (Page.Answer 0 (Page.Resolved error_answer))
      (asked short_link) in
  spinner_hidden (Page.page b') /\
  Page.getElementById (Page.page b') Page.errorContainer
  = Page.Element false (Some (Page.String_ Z (py "Invalid YouTube URL"))) /\
  (forall id,
     id <> Page.loadingSpinner -> id <> Page.errorContainer ->
     Page.getElementById (Page.page b') id
     = Page.getElementById (Page.page (asked short_link)) id) /\
  Page.effects b' = [] /\
  Page.waiting b' = [].
Proof.
  apply (@failed_answer_shows_error Z (Z.eqb 0) (asked short_link) 0
           (request_of short_link) (Page.Resolved error_answer)).
  - reflexivity.
  - intros (d & E & H). injection E as <-. discriminate H.
Defined.

Lemma page_shows_the_answer_of_the_handler_witness :
  exists resp log,
    answers quiet (post_url (py "x")) resp log /\
    let b' :=
      Page.play (Z.eqb 0)
        [Page.Click Z; Page.Answer 0 (served_by Z quiet (request_of (py "x")))]
        (fresh (py "x")) in
    Page.waiting b' = [] /\
    Page.effects b' = [] ++ [the_fetch (py "x")] /\
    ((exists transcript summary,
        resp = Response (success_body transcript summary) 200 /\
        shows_results (Page.page b') /\
        text_of (Page.page b') Page.transcriptContent
        = Page.value_of Z (to_json transcript) /\
        text_of (Page.page b') Page.summaryContent
        = Page.value_of Z (to_json summary)) \/
     (exists message code,
        resp = Response (error_body message) code /\ code <> 200%Z /\
        shows_error (Page.page b') /\
        text_of (Page.page b') Page.errorContainer
        = Some (if truthy (Some message)
                then Page.String_ Z message
                else generic_error Z))).
Proof.
  apply (@page_shows_the_answer_of_the_handler Z (Z.eqb 0) quiet
           (fresh (py "x"))).
  - reflexivity.
  - discriminate.
Defined.

Lemma overlapping_clicks_show_error_and_results_witness :
  let b' :=
    Page.play (Z.eqb 0)
      [Page.Typing Z (py "a"); Page.Click Z;
       Page.Typing Z (py "b"); Page.Click Z;
       Page.Answer 1 (Page.Resolved error_answer);
       Page.Answer 0 (Page.Resolved success_answer)] (fresh [])
  in
  Page.waiting b' = [] /\ spinner_hidden (Page.page b') /\
  shows_both (Page.page b').
Proof.
  apply (@overlapping_clicks_show_error_and_results Z (Z.eqb 0) (fresh [])
           (py "a") (py "b") success_answer (Page.Resolved error_answer)).
  - reflexivity.
  - discriminate.
  - discriminate.
  - reflexivity.
  - intros (d & E & H). injection E as <-. discriminate H.
Defined.

Lemma spinner_is_hidden_when_nothing_is_awaited_witness :
  spinner_hidden
    (Page.page
       (Page.play (Z.eqb 0)
          [Page.Click Z; Page.Click Z; Page.Answer 1 (Page.Rejected Z);
           Page.Answer 0 (Page.Resolved success_answer)]
          (fresh short_link))).
Proof.
  apply (@spinner_is_hidden_when_nothing_is_awaited Z (Z.eqb 0)
           [Page.Click Z; Page.Click Z; Page.Answer 1 (Page.Rejected Z);
            Page.Answer 0 (Page.Resolved success_answer)]
           (fresh short_link)).
  - intros _. reflexivity.
  - reflexivity.
Defined.
